(** * RAG Chat front end: a shallow embedding and its verified properties

    The development follows the TypeScript sources of the Next.js client:

    - [hooks/use-chat.ts]  : the [useChat] hook ([fetchChats], [sendMessage],
      [getChatHistory], [deleteChat], [uploadDocument]);
    - [chat-interface.tsx] : [ChatInterface] ([handleSend], [renderMessage]);
    - [chat-sidebar.tsx]   : [ChatSidebar] ([handleDeleteChat], [sortedChats]);
    - [document-upload.tsx]: [DocumentUpload] ([onDrop], [handleUpload],
      [formatFileSize]);
    - [dashboard/page.tsx] : [DashboardPage] ([currentChatId], [onChatCreated]).

    React state is modelled by explicit state passing on one record per
    component.  An [async] function receives the outcome of each awaited
    network call as an argument and returns, besides its result and the new
    state, the list of effects it performed (HTTP requests, toasts, console
    output), in program order.

    The FastAPI back end is not part of the sources.  Where a property
    depends on it, the Chat Session Store of the specification is modelled in
    [Module Backend], and every definition there says so. *)

From Stdlib Require Import ZArith QArith Qround String Ascii DecimalString.
From Stdlib Require Import Sorting.Permutation Sorting.Sorted.
From Stdlib Require DecimalPos DecimalZ.
From stdpp Require Import gmap strings list.

Local Open Scope Z_scope.

(* ===================================================================== *)
(** * JavaScript values *)
(* ===================================================================== *)

(** A JavaScript string is a sequence of UTF-16 code units. *)
Abbreviation jsstring := (list N).

(** String literals of the sources, written as Rocq strings. *)
Definition js (s : string) : jsstring :=
  List.map N_of_ascii (list_ascii_of_string s).

(** Truthiness of a string: only the empty string is falsy. *)
Definition truthy (s : jsstring) : bool :=
  match s with [] => false | _ :: _ => true end.

(** Truthiness of a [string | null]. *)
Definition truthy_opt (s : option jsstring) : bool :=
  match s with None => false | Some s => truthy s end.

(** [s1 === s2] on strings. *)
Definition str_eqb (s1 s2 : jsstring) : bool := bool_decide (s1 = s2).

(** ECMAScript [WhiteSpace] and [LineTerminator] code points, the characters
    [String.prototype.trim] strips. *)
Definition is_white_space (c : N) : bool :=
  ((c =? 0x9) || (c =? 0xA) || (c =? 0xB) || (c =? 0xC) || (c =? 0xD)
   || (c =? 0x20) || (c =? 0xA0) || (c =? 0x1680)
   || ((0x2000 <=? c) && (c <=? 0x200A))
   || (c =? 0x2028) || (c =? 0x2029) || (c =? 0x202F) || (c =? 0x205F)
   || (c =? 0x3000) || (c =? 0xFEFF))%N.

Fixpoint trimStart (s : jsstring) : jsstring :=
  match s with
  | [] => []
  | c :: s' => if is_white_space c then trimStart s' else s
  end.

Definition trimEnd (s : jsstring) : jsstring := rev (trimStart (rev s)).

(** [s.trim()] *)
Definition trim (s : jsstring) : jsstring := trimEnd (trimStart s).

(** A string that is empty or consists only of white space. *)
Definition blank (s : jsstring) : Prop := Forall (fun c => is_white_space c = true) s.

(** Decimal rendering of an integer, as in a template literal. *)
Definition Z_toString (z : Z) : jsstring :=
  js (NilZero.string_of_int (Z.to_int z)).

(** The values an [unknown] metadata entry is inspected for. *)
Inductive JsValue : Type :=
| JUndefined
| JNull
| JBool (b : bool)
| JNumber (q : Q)
| JString (s : jsstring)
| JObject.

(** [Math.round]: the nearest integer, halves rounded towards +infinity.
    Numbers are exact rationals here; a product is not rounded to a double
    before it reaches [Math.round], so where the exact product lies within a
    rounding error of a half the engine can show the neighbouring integer. *)
Definition Math_round (x : Q) : Z := Qfloor (x + (1 # 2))%Q.

(** The result of an awaited promise. *)
Inductive Outcome (A : Type) : Type :=
| Fulfilled (a : A)
| Rejected.
Arguments Fulfilled {A} a.
Arguments Rejected {A}.

(* ===================================================================== *)
(** * hooks/use-chat.ts: data *)
(* ===================================================================== *)

Module Source.
Record t : Type := mk {
  content : jsstring;
  metadata : gmap (list N) JsValue;
  similarity_score : Q
}.
End Source.

Module ChatMessage.
Record t : Type := mk {
  id : jsstring;
  chat_id : jsstring;
  user_id : jsstring;
  message : jsstring;
  response : jsstring;
  message_type : jsstring;
  sources : list Source.t;
  timestamp : jsstring;
  metadata : gmap (list N) JsValue
}.
End ChatMessage.

Module Chat.
Record t : Type := mk {
  chat_id : jsstring;
  title : jsstring;
  created_at : jsstring;
  last_message_at : jsstring;
  message_count : Z
}.
End Chat.

Module ChatResponse.
Record t : Type := mk {
  response : jsstring;
  chat_id : jsstring;
  sources : list Source.t;
  timestamp : jsstring
}.
End ChatResponse.

(** The browser [File] object, as far as the client looks at it. *)
Module File.
Record t : Type := mk {
  name : jsstring;
  type : jsstring;
  size : Z
}.
End File.

(** Requests the client sends to the API. *)
Inductive Request : Type :=
| GET_chats
| POST_chat (message : jsstring) (chat_id : option jsstring) (include_sources : bool)
| GET_history (chatId : jsstring)
| DELETE_chat (chatId : jsstring)
| POST_upload (file : File.t).

(** Everything a handler does besides updating React state. *)
Inductive Effect : Type :=
| Http (r : Request)
| ConsoleError (msg : jsstring)
| ToastError (msg : jsstring)
| ToastSuccess (msg : jsstring).

(* ===================================================================== *)
(** * hooks/use-chat.ts: the [useChat] hook *)
(* ===================================================================== *)

(** The three [useState] cells of one instance of the hook. *)
Record UseChat : Type := mkUseChat {
  chats : list Chat.t;
  loading : bool;
  error : option jsstring
}.

Definition useChat_initial : UseChat :=
  {| chats := []; loading := false; error := None |}.

(** [fetchChats]: [resp] is the outcome of [axios.get('/api/chats')].
    [setLoading(true)] at the start is overwritten in [finally]. *)
Definition fetchChats (resp : Outcome (list Chat.t)) (h : UseChat)
  : UseChat * list Effect :=
  match resp with
  | Fulfilled data =>
      ({| chats := data; loading := false; error := None |},
       [Http GET_chats])
  | Rejected =>
      ({| chats := chats h; loading := false;
          error := Some (js "Failed to load chats") |},
       [Http GET_chats; ConsoleError (js "Failed to fetch chats:");
        ToastError (js "Failed to load chats")])
  end.

(** [sendMessage(message, chatId)]: [post] is the outcome of the POST and
    [listing] the outcome of the GET issued by [fetchChats] afterwards.  The
    promise never rejects: a failure is logged and turned into [null]. *)
Definition sendMessage (message : jsstring) (chatId : option jsstring)
    (post : Outcome ChatResponse.t) (listing : Outcome (list Chat.t))
    (h : UseChat) : option ChatResponse.t * UseChat * list Effect :=
  match post with
  | Fulfilled data =>
      let '(h', eff) := fetchChats listing h in
      (Some data, h', Http (POST_chat message chatId true) :: eff)
  | Rejected =>
      (None, h,
       [Http (POST_chat message chatId true);
        ConsoleError (js "Failed to send message:");
        ToastError (js "Failed to send message")])
  end.

(** [getChatHistory(chatId)]: a failed request yields the empty array. *)
Definition getChatHistory (chatId : jsstring)
    (resp : Outcome (list ChatMessage.t)) : list ChatMessage.t * list Effect :=
  match resp with
  | Fulfilled data => (data, [Http (GET_history chatId)])
  | Rejected =>
      ([], [Http (GET_history chatId);
            ConsoleError (js "Failed to fetch chat history:");
            ToastError (js "Failed to load chat history")])
  end.

(** [deleteChat(chatId)]: the chat leaves the local list only after the
    server accepted the DELETE. *)
Definition deleteChat (chatId : jsstring) (resp : Outcome unit) (h : UseChat)
  : bool * UseChat * list Effect :=
  match resp with
  | Fulfilled _ =>
      (true,
       {| chats := List.filter (fun chat => negb (str_eqb (Chat.chat_id chat) chatId)) (chats h);
          loading := loading h; error := error h |},
       [Http (DELETE_chat chatId); ToastSuccess (js "Chat deleted successfully")])
  | Rejected =>
      (false, h,
       [Http (DELETE_chat chatId); ConsoleError (js "Failed to delete chat:");
        ToastError (js "Failed to delete chat")])
  end.

(** [uploadDocument(file)] *)
Definition uploadDocument (file : File.t) (resp : Outcome unit)
  : bool * list Effect :=
  match resp with
  | Fulfilled _ =>
      (true, [Http (POST_upload file); ToastSuccess (js "Document uploaded successfully")])
  | Rejected =>
      (false, [Http (POST_upload file); ConsoleError (js "Failed to upload document:");
               ToastError (js "Failed to upload document")])
  end.

(* ===================================================================== *)
(** * chat-interface.tsx: [ChatInterface] *)
(* ===================================================================== *)

(** The [useState] cells of the component.  The props [chatId] and
    [onChatCreated] belong to the parent and are passed to the handlers. *)
Record ChatInterface : Type := mkChatInterface {
  messages : list ChatMessage.t;
  input : jsstring;
  isLoading : bool;
  loadingHistory : bool
}.

Definition ChatInterface_initial : ChatInterface :=
  {| messages := []; input := []; isLoading := false; loadingHistory := false |}.

(** The clock readings of one run of [handleSend]: the two calls of
    [Date.now()] and the value of [new Date().toISOString()]. *)
Record Clock : Type := mkClock {
  Date_now_user : Z;
  Date_now_ai : Z;
  Date_toISOString : jsstring
}.

(** The effect on [chatId]: load the history of a chat, or clear the list. *)
Definition loadHistory_effect (chatId : option jsstring)
    (history : Outcome (list ChatMessage.t)) (st : ChatInterface)
  : ChatInterface * list Effect :=
  match chatId with
  | Some c =>
      if truthy c then
        let '(msgs, eff) := getChatHistory c history in
        ({| messages := msgs; input := input st; isLoading := isLoading st;
            loadingHistory := false |}, eff)
      else
        ({| messages := []; input := input st; isLoading := isLoading st;
            loadingHistory := loadingHistory st |}, [])
  | None =>
      ({| messages := []; input := input st; isLoading := isLoading st;
          loadingHistory := loadingHistory st |}, [])
  end.

(** [onChange] of the text area. *)
Definition setInput (value : jsstring) (st : ChatInterface) : ChatInterface :=
  {| messages := messages st; input := value; isLoading := isLoading st;
     loadingHistory := loadingHistory st |}.

Definition newUserMessage (clk : Clock) (userMessage : jsstring)
    (response : ChatResponse.t) : ChatMessage.t :=
  {| ChatMessage.id := js "user-" ++ Z_toString (Date_now_user clk);
     ChatMessage.chat_id := ChatResponse.chat_id response;
     ChatMessage.user_id := [];
     ChatMessage.message := userMessage;
     ChatMessage.response := [];
     ChatMessage.message_type := js "user";
     ChatMessage.sources := [];
     ChatMessage.timestamp := Date_toISOString clk;
     ChatMessage.metadata := ∅ |}.

Definition newAiMessage (clk : Clock) (response : ChatResponse.t) : ChatMessage.t :=
  {| ChatMessage.id := js "ai-" ++ Z_toString (Date_now_ai clk);
     ChatMessage.chat_id := ChatResponse.chat_id response;
     ChatMessage.user_id := [];
     ChatMessage.message := [];
     ChatMessage.response := ChatResponse.response response;
     ChatMessage.message_type := js "assistant";
     ChatMessage.sources := ChatResponse.sources response;
     ChatMessage.timestamp := ChatResponse.timestamp response;
     ChatMessage.metadata := ∅ |}.

(** The guard of [handleSend], also the [disabled] flag of the send button:
    [!input.trim() || isLoading]. *)
Definition send_disabled (st : ChatInterface) : bool :=
  negb (truthy (trim (input st))) || isLoading st.

(** [handleSend] up to its [await]: either it returns at once, or it clears
    the input, raises [isLoading] and calls [sendMessage(userMessage, chatId)]
    with the [userMessage] returned here. *)
Definition handleSend_begin (st : ChatInterface) : ChatInterface * option jsstring :=
  if send_disabled st then (st, None)
  else
    ({| messages := messages st; input := []; isLoading := true;
        loadingHistory := loadingHistory st |},
     Some (trim (input st))).

(** [handleSend] after its [await].  [chatId] and [userMessage] are the values
    the closure captured; [st] is the state at the time the promise settles.
    The third component is the argument of [onChatCreated], when called. *)
Definition handleSend_resume (clk : Clock) (chatId : option jsstring)
    (userMessage : jsstring) (result : Outcome (option ChatResponse.t))
    (st : ChatInterface) : ChatInterface * list Effect * option jsstring :=
  match result with
  | Fulfilled (Some response) =>
      ({| messages := messages st ++
                        [newUserMessage clk userMessage response;
                         newAiMessage clk response];
          input := input st; isLoading := false;
          loadingHistory := loadingHistory st |},
       [],
       if negb (truthy_opt chatId)
       then Some (ChatResponse.chat_id response) else None)
  | Fulfilled None =>
      ({| messages := messages st; input := input st; isLoading := false;
          loadingHistory := loadingHistory st |}, [], None)
  | Rejected =>
      ({| messages := messages st; input := input st; isLoading := false;
          loadingHistory := loadingHistory st |},
       [ToastError (js "Failed to send message")], None)
  end.

(** What the network answers during one run of [handleSend]. *)
Record Network : Type := mkNetwork {
  post_chat : Outcome ChatResponse.t;
  get_chats : Outcome (list Chat.t)
}.

(** One complete run of [handleSend] with the component's own instance [h] of
    the hook: new component state, new hook state, effects, and the argument
    of [onChatCreated] when it was called. *)
Definition handleSend (clk : Clock) (net : Network) (chatId : option jsstring)
    (h : UseChat) (st : ChatInterface)
  : ChatInterface * UseChat * list Effect * option jsstring :=
  match handleSend_begin st with
  | (st1, None) => (st1, h, [], None)
  | (st1, Some userMessage) =>
      let '(response, h', eff1) :=
        sendMessage userMessage chatId (post_chat net) (get_chats net) h in
      let '(st2, eff2, created) :=
        handleSend_resume clk chatId userMessage (Fulfilled response) st1 in
      (st2, h', eff1 ++ eff2, created)
  end.

(** [handleKeyPress]: Enter without Shift sends. *)
Definition handleKeyPress (key : jsstring) (shiftKey : bool)
    (clk : Clock) (net : Network) (chatId : option jsstring)
    (h : UseChat) (st : ChatInterface)
  : ChatInterface * UseChat * list Effect * option jsstring :=
  if str_eqb key (js "Enter") && negb shiftKey
  then handleSend clk net chatId h st
  else (st, h, [], None).

(** What [renderMessage] shows of one source. *)
Record SourceView : Type := mkSourceView {
  badge_percent : Z;
  page_label : option Q;
  source_text : jsstring
}.

(** What [renderMessage] shows of one message; [view_sources] is [None] when
    the "Sources" block is not rendered. *)
Record MessageView : Type := mkMessageView {
  view_key : jsstring;
  view_isUser : bool;
  view_content : jsstring;
  view_timestamp : jsstring;
  view_sources : option (list SourceView)
}.

Definition renderSource (source : Source.t) : SourceView :=
  {| badge_percent := Math_round (Source.similarity_score source * 100)%Q;
     page_label :=
       match Source.metadata source !! js "page" with
       | Some (JNumber pageNum) => if Qeq_bool pageNum 0 then None else Some pageNum
       | _ => None
       end;
     source_text := Source.content source |}.

Definition renderMessage (message : ChatMessage.t) (index : Z) : MessageView :=
  let isUser := str_eqb (ChatMessage.message_type message) (js "user") in
  {| view_key := ChatMessage.id message ++ js "-" ++ Z_toString index;
     view_isUser := isUser;
     view_content :=
       if isUser then ChatMessage.message message else ChatMessage.response message;
     view_timestamp := ChatMessage.timestamp message;
     view_sources :=
       if negb isUser && (0 <? Z.of_nat (length (ChatMessage.sources message)))
       then Some (List.map renderSource (ChatMessage.sources message))
       else None |}.

(* ===================================================================== *)
(** * dashboard/page.tsx: [DashboardPage] *)
(* ===================================================================== *)

Record DashboardPage : Type := mkDashboardPage {
  currentChatId : option jsstring;
  isSidebarOpen : bool;
  isUploadDialogOpen : bool
}.

Definition DashboardPage_initial : DashboardPage :=
  {| currentChatId := None; isSidebarOpen := true; isUploadDialogOpen := false |}.

Definition setCurrentChatId (c : option jsstring) (d : DashboardPage) : DashboardPage :=
  {| currentChatId := c; isSidebarOpen := isSidebarOpen d;
     isUploadDialogOpen := isUploadDialogOpen d |}.

Definition handleNewChat (d : DashboardPage) : DashboardPage :=
  setCurrentChatId None d.

Definition handleSelectChat (chatId : jsstring) (d : DashboardPage) : DashboardPage :=
  setCurrentChatId (Some chatId) d.

(** The [onChatCreated] callback handed to [ChatInterface]: adopt the id and
    refetch the page's own chat list. *)
Definition onChatCreated (newChatId : jsstring) (listing : Outcome (list Chat.t))
    (d : DashboardPage) (h : UseChat) : DashboardPage * UseChat * list Effect :=
  let '(h', eff) := fetchChats listing h in
  (setCurrentChatId (Some newChatId) d, h', eff).

(* ===================================================================== *)
(** * chat-sidebar.tsx: [ChatSidebar] *)
(* ===================================================================== *)

(** [Array.prototype.sort(compareFn)]: a stable sort; [x] goes before [y]
    when [compareFn(x, y) <= 0].  For a consistent comparator every stable
    sort returns this list, and that is all this definition is used for: when
    the comparator is not consistent (a [NaN] among the comparisons) the
    order is the engine's own and is not described here. *)
Section ArraySort.
Context {A : Type} (compareFn : A -> A -> Z).

Fixpoint sort_insert (x : A) (l : list A) : list A :=
  match l with
  | [] => [x]
  | y :: l' => if compareFn x y <=? 0 then x :: l else y :: sort_insert x l'
  end.

Definition Array_sort (l : list A) : list A := foldr sort_insert [] l.
End ArraySort.

(** [x] may stand before [y]: its key is not the smaller one. *)
Definition not_before {A : Type} (key : A -> Z) (x y : A) : Prop := key y <= key x.

Section ChatSidebar.
(** [new Date(s).getTime()]: the time in milliseconds, or [None] for the
    [NaN] of a string that is not a date. *)
Variable getTime : jsstring -> option Z.

(** The subtraction in the comparator; [None] is [NaN]. *)
Definition time_difference (a b : Chat.t) : option Z :=
  match getTime (Chat.last_message_at b), getTime (Chat.last_message_at a) with
  | Some tb, Some ta => Some (tb - ta)
  | _, _ => None
  end.

(** The comparator as [sort] reads it: a [NaN] result counts as [+0]. *)
Definition compare_chats (a b : Chat.t) : Z :=
  match time_difference a b with Some v => v | None => 0 end.

Definition sortedChats (chats : list Chat.t) : list Chat.t :=
  Array_sort compare_chats chats.

(** What the sidebar renders. *)
Inductive SidebarView : Type :=
| Spinner
| NoChatsYet
| ChatList (cards : list Chat.t).

Definition ChatSidebar (chats : list Chat.t) (loading : bool) : SidebarView :=
  if loading then Spinner
  else if (Z.of_nat (length chats) =? 0) then NoChatsYet
  else ChatList (sortedChats chats).

(** The chat's [last_message_at] is a date. *)
Definition dated (c : Chat.t) : Prop := is_Some (getTime (Chat.last_message_at c)).

Definition time_of (c : Chat.t) : Z := default 0 (getTime (Chat.last_message_at c)).
End ChatSidebar.

(** [handleDeleteChat]: [h] is the sidebar's own instance of the hook.  The
    last component is the argument of [onSelectChat], when called. *)
Definition handleDeleteChat (chatId : jsstring) (resp : Outcome unit)
    (currentChatId : option jsstring) (h : UseChat)
  : UseChat * list Effect * option jsstring :=
  let '(success, h', eff) := deleteChat chatId resp h in
  (h', eff,
   if success && bool_decide (currentChatId = Some chatId) then Some [] else None).

(* ===================================================================== *)
(** * document-upload.tsx: [DocumentUpload] *)
(* ===================================================================== *)

Record DocumentUpload : Type := mkDocumentUpload {
  selectedFile : option File.t;
  isUploading : bool
}.

Definition DocumentUpload_initial : DocumentUpload :=
  {| selectedFile := None; isUploading := false |}.

Definition is_pdf (file : File.t) : bool :=
  str_eqb (File.type file) (js "application/pdf").

(** [onDrop(acceptedFiles)] *)
Definition onDrop (acceptedFiles : list File.t) (st : DocumentUpload)
  : DocumentUpload * list Effect :=
  match acceptedFiles with
  | file :: _ =>
      if is_pdf file
      then ({| selectedFile := Some file; isUploading := isUploading st |}, [])
      else (st, [ToastError (js "Please select a PDF file")])
  | [] => (st, [ToastError (js "Please select a PDF file")])
  end.

(** [handleUpload]; the last component tells whether [onUploadSuccess] ran. *)
Definition handleUpload (resp : Outcome unit) (st : DocumentUpload)
  : DocumentUpload * list Effect * bool :=
  match selectedFile st with
  | None => (st, [], false)
  | Some file =>
      let '(success, eff) := uploadDocument file resp in
      if success
      then ({| selectedFile := None; isUploading := false |}, eff, true)
      else ({| selectedFile := Some file; isUploading := false |}, eff, false)
  end.

Definition removeFile (st : DocumentUpload) : DocumentUpload :=
  {| selectedFile := None; isUploading := isUploading st |}.

(** User actions on the upload dialog. *)
Inductive UploadEvent : Type :=
| Drop (acceptedFiles : list File.t)
| ClickUpload (resp : Outcome unit)
| ClickRemove.

Definition upload_step (ev : UploadEvent) (st : DocumentUpload)
  : DocumentUpload * list Effect :=
  match ev with
  | Drop files => onDrop files st
  | ClickUpload resp => let '(st', eff, _) := handleUpload resp st in (st', eff)
  | ClickRemove => (removeFile st, [])
  end.

(** A session with the dialog: the final state and all effects, in order. *)
Fixpoint upload_run (evs : list UploadEvent) (st : DocumentUpload)
  : DocumentUpload * list Effect :=
  match evs with
  | [] => (st, [])
  | ev :: evs' =>
      let '(st1, eff1) := upload_step ev st in
      let '(st2, eff2) := upload_run evs' st1 in
      (st2, eff1 ++ eff2)
  end.

(** ** [formatFileSize] *)

(** [Math.floor(Math.log(bytes) / Math.log(k))] in exact arithmetic, for
    [bytes >= 1] and [k >= 2]: the number of times [bytes] can be divided by
    [k] before it drops below [k]. *)
Fixpoint floor_log_fuel (fuel : nat) (k bytes : Z) : Z :=
  match fuel with
  | O => 0
  | S fuel' =>
      if bytes <? k then 0 else 1 + floor_log_fuel fuel' k (bytes / k)
  end.

Definition floor_log (k bytes : Z) : Z :=
  floor_log_fuel (S (Z.to_nat (Z.log2 bytes))) k bytes.

Definition sizes : list jsstring := [js "Bytes"; js "KB"; js "MB"; js "GB"].

(** [sizes[i]]; an index outside the array reads [undefined]. *)
Definition sizes_at (i : Z) : option jsstring :=
  if i <? 0 then None else sizes !! Z.to_nat i.

(** [x.toFixed(2)] read back by [parseFloat], as a number of hundredths:
    [bytes / k^i] rounded to two decimals, ties upwards. *)
Definition hundredths (bytes d : Z) : Z := (200 * bytes + d) / (2 * d).

(** A number of hundredths in the decimal notation of [Number::toString]:
    no trailing zeros, no decimal point for an integer. *)
Definition hundredths_toString (n : Z) : jsstring :=
  let whole := Z_toString (n / 100) in
  let frac := n mod 100 in
  if frac =? 0 then whole
  else if frac mod 10 =? 0 then whole ++ js "." ++ Z_toString (frac / 10)
  else whole ++ js "." ++ Z_toString (frac / 10) ++ Z_toString (frac mod 10).

(** Reading a number back from its decimal notation. *)

(** The string as a Rocq string, when all its code units are below 256. *)
Definition js_to_string (s : jsstring) : option string :=
  if forallb (fun c => (c <? 256)%N) s
  then Some (string_of_list_ascii (List.map ascii_of_N s))
  else None.

(** The value of a non-empty sequence of decimal digits; [None] for the empty
    string and for a string with any other character. *)
Definition digits_value (s : jsstring) : option Z :=
  match js_to_string s with
  | Some str =>
      match NilZero.uint_of_string str with
      | Some d => Some (Z.of_uint d)
      | None => None
      end
  | None => None
  end.

(** The text before the first decimal point and, if there is one, the text
    after it. *)
Fixpoint split_at_point (s : jsstring) : jsstring * option jsstring :=
  match s with
  | [] => ([], None)
  | c :: s' =>
      if (c =? 46)%N then ([], Some s')
      else (c :: (split_at_point s').1, (split_at_point s').2)
  end.

(** The number that a decimal numeral with at most two decimals denotes, in
    hundredths: digits, or digits, a point and one or two digits. *)
Definition decimal_hundredths (s : jsstring) : option Z :=
  match split_at_point s with
  | (whole, None) =>
      match digits_value whole with
      | Some w => Some (100 * w)
      | None => None
      end
  | (whole, Some frac) =>
      match digits_value whole, digits_value frac, length frac with
      | Some w, Some f, 1%nat => Some (100 * w + 10 * f)
      | Some w, Some f, 2%nat => Some (100 * w + f)
      | _, _, _ => None
      end
  end.

(** The index [i] of [formatFileSize], for [bytes >= 1], with the logarithm
    in exact arithmetic.  The quotient of the two double logarithms has the
    same floor for the sizes below [1024^4]; just below a higher power of
    1024 it can round up to the next integer, and what is proved of
    [formatFileSize] is about sizes below [1024^4]. *)
Definition unit_index (bytes : Z) : Z := floor_log 1024 bytes.

(** [formatFileSize(bytes)] for an integer [bytes], as the size of a file
    is.  The logarithm of a negative number is [NaN], and so are the index
    and the quotient then. *)
Definition formatFileSize (bytes : Z) : jsstring :=
  if bytes =? 0 then js "0 Bytes"
  else if bytes <? 0 then js "NaN undefined"
  else
    let k := 1024 in
    let i := unit_index bytes in
    hundredths_toString (hundredths bytes (k ^ i)) ++ js " " ++
    match sizes_at i with Some unit => unit | None => js "undefined" end.

(* ===================================================================== *)
(** * The back end, from the specification *)
(* ===================================================================== *)

Module Backend.

(** Modelled from the spec: the roles of a Message (data model); the back
    end is missing from the sources. *)
Inductive Role : Type := user | assistant.

(** Modelled from the spec: a Message of the data model, missing from the
    sources.  The identifier of a message plays no part in any operation
    and is left out. *)
Record Message : Type := mkMessage {
  chat_id : jsstring;
  role : Role;
  content : jsstring;
  sources : list Source.t;
  timestamp : jsstring
}.

(** Modelled from the spec: a ChatSession of the data model together with
    the Messages it owns, missing from the sources. *)
Record ChatSession : Type := mkChatSession {
  owner_id : jsstring;
  title : jsstring;
  created_at : jsstring;
  last_message_at : jsstring;
  message_count : Z;
  messages : list Message
}.

(** Modelled from the spec: the error taxonomy, as far as the chat
    operations raise it. *)
Inductive Error : Type :=
| ValidationError
| NotFoundError
| ServiceUnavailableError.

(** Modelled from the spec: the state of the Chat Session Store, missing from
    the sources: the sessions by [chat_id]. *)
Abbreviation Store := (gmap (list N) ChatSession).

(** Modelled from the spec: [Chat Session Store.append], missing from the
    sources.  Without a [chat_id] a session is created under [new_id], its
    title the first 50 characters of the user message; with one, both
    Messages are appended to the session after the ownership check, the
    count grows by two and [last_message_at] is updated.  [new_id] is the
    identifier the store generates and [now] its clock. *)
Definition append (new_id now : jsstring) (chat_id : option jsstring)
    (owner : jsstring) (user_message assistant_message : jsstring)
    (srcs : list Source.t) (store : Store) : Error + (jsstring * Store) :=
  let pair c :=
    [ {| chat_id := c; role := user; content := user_message;
         sources := []; timestamp := now |};
      {| chat_id := c; role := assistant; content := assistant_message;
         sources := srcs; timestamp := now |} ] in
  match chat_id with
  | None =>
      inr (new_id,
           <[new_id :=
               {| owner_id := owner; title := take 50 user_message;
                  created_at := now; last_message_at := now;
                  message_count := 2; messages := pair new_id |}]> store)
  | Some c =>
      match store !! c with
      | Some session =>
          if bool_decide (owner_id session = owner) then
            inr (c,
                 <[c :=
                     {| owner_id := owner_id session; title := title session;
                        created_at := created_at session; last_message_at := now;
                        message_count := message_count session + 2;
                        messages := messages session ++ pair c |}]> store)
          else inl NotFoundError
      | None => inl NotFoundError
      end
  end.

(** Modelled from the spec: [Chat Session Store.history], missing from the
    sources. *)
Definition history (chat_id owner : jsstring) (store : Store)
  : Error + list Message :=
  match store !! chat_id with
  | Some session =>
      if bool_decide (owner_id session = owner)
      then inr (messages session) else inl NotFoundError
  | None => inl NotFoundError
  end.

(** Modelled from the spec: [Chat Session Store.delete], missing from the
    sources: the session and its Messages are removed when a session with
    that id is owned by [owner]; otherwise [NotFoundError], whether the
    session does not exist or belongs to someone else.  The store after the
    call is returned in both cases. *)
Definition delete (chat_id owner : jsstring) (store : Store)
  : option Error * Store :=
  match store !! chat_id with
  | Some session =>
      if bool_decide (owner_id session = owner)
      then (None, base.delete chat_id store)
      else (Some NotFoundError, store)
  | None => (Some NotFoundError, store)
  end.

(** Modelled from the spec: what the missing Query Pipeline takes from
    outside the store during one chat turn: the identifier and the time the
    store would use, and the result of retrieval and generation (the answer
    with the sources that went into the context). *)
Record Turn : Type := mkTurn {
  new_id : jsstring;
  now : jsstring;
  generated : Outcome (jsstring * list Source.t)
}.

(** Modelled from the spec: the Query Pipeline behind [POST /api/chat],
    missing from the sources: a missing query is rejected, a failed
    generation persists nothing, and a persisted turn answers with the
    assistant text, its sources and the [chat_id] of the session. *)
Definition chat (t : Turn) (owner query : jsstring) (chat_id : option jsstring)
    (store : Store) : Outcome ChatResponse.t * Store :=
  if truthy query then
    match generated t with
    | Fulfilled (answer, srcs) =>
        match append (new_id t) (now t) chat_id owner query answer srcs store with
        | inr (c, store') =>
            (Fulfilled {| ChatResponse.response := answer;
                          ChatResponse.chat_id := c;
                          ChatResponse.sources := srcs;
                          ChatResponse.timestamp := now t |},
             store')
        | inl _ => (Rejected, store)
        end
    | Rejected => (Rejected, store)
    end
  else (Rejected, store).

(** Modelled from the spec: the missing handler of
    [DELETE /api/chat/{chat_id}], as the client sees it: any error of
    [delete] rejects the request. *)
Definition delete_request (chat_id owner : jsstring) (store : Store)
  : Outcome unit * Store :=
  match delete chat_id owner store with
  | (None, store') => (Fulfilled tt, store')
  | (Some _, store') => (Rejected, store')
  end.

End Backend.

(* ===================================================================== *)
(** * The dashboard talking to the back end *)
(* ===================================================================== *)

(** The page with its chat panel, each with its own instance of the hook,
    and the store of the back end, for one signed-in owner. *)
Record System : Type := mkSystem {
  owner : jsstring;
  store : gmap (list N) Backend.ChatSession;
  page : DashboardPage;
  page_hook : UseChat;
  panel : ChatInterface;
  panel_hook : UseChat
}.

(** The chat requests among some effects, in order: message and chat id. *)
Definition chat_posts (effs : list Effect) : list (jsstring * option jsstring) :=
  omap (fun e => match e with
                 | Http (POST_chat message chat_id _) => Some (message, chat_id)
                 | _ => None
                 end) effs.

(** The back end answering the chat requests that reach it, one after the
    other. *)
Fixpoint serve (bt : Backend.Turn) (owner : jsstring)
    (posts : list (jsstring * option jsstring))
    (store : gmap (list N) Backend.ChatSession)
  : list (Outcome ChatResponse.t) * gmap (list N) Backend.ChatSession :=
  match posts with
  | [] => ([], store)
  | (message, chat_id) :: posts' =>
      let first := Backend.chat bt owner message chat_id store in
      let rest := serve bt owner posts' first.2 in
      (first.1 :: rest.1, rest.2)
  end.

(** One attempt of the user to send [typed]; [answer] is what the network
    hands the client for its chat request. *)
Record TurnInput : Type := mkTurnInput {
  typed : jsstring;
  clock : Clock;
  backend_turn : Backend.Turn;
  answer : Outcome ChatResponse.t;
  panel_listing : Outcome (list Chat.t);
  page_listing : Outcome (list Chat.t)
}.

(** The client's side of a turn: the user types [typed] and [handleSend]
    runs with the page's [currentChatId] as [chatId]. *)
Definition client_turn (t : TurnInput) (s : System)
  : ChatInterface * UseChat * list Effect * option jsstring :=
  handleSend (clock t) {| post_chat := answer t; get_chats := panel_listing t |}
    (currentChatId (page s)) (panel_hook s) (setInput (typed t) (panel s)).

(** A turn of the whole system.  The store changes only through the chat
    requests [handleSend] has issued, which the back end serves in order, and
    [onChatCreated] reaches the page when [handleSend] calls it.  The history
    reload the page triggers by changing [chatId] is a later event and not
    part of the turn. *)
Definition chat_turn (t : TurnInput) (s : System) : System * list Effect :=
  let run := client_turn t s in
  let served := serve (backend_turn t) (owner s) (chat_posts run.1.2) (store s) in
  match run.2 with
  | Some newChatId =>
      let after := onChatCreated newChatId (page_listing t) (page s) (page_hook s) in
      ({| owner := owner s; store := served.2; page := after.1.1; page_hook := after.1.2;
          panel := run.1.1.1; panel_hook := run.1.1.2 |}, run.1.2 ++ after.2)
  | None =>
      ({| owner := owner s; store := served.2; page := page s; page_hook := page_hook s;
          panel := run.1.1.1; panel_hook := run.1.1.2 |}, run.1.2)
  end.

(** The network is honest in this turn: each chat request the client issued
    was answered with what the back end answered to that request. *)
Definition delivered (t : TurnInput) (s : System) : Prop :=
  (serve (backend_turn t) (owner s) (chat_posts (client_turn t s).1.2) (store s)).1 =
  List.map (fun _ => answer t) (chat_posts (client_turn t s).1.2).

(** A conversation: turns one after the other, with all their effects. *)
Fixpoint chat_turns (ts : list TurnInput) (s : System) : System * list Effect :=
  match ts with
  | [] => (s, [])
  | t :: ts' =>
      let '(s1, eff1) := chat_turn t s in
      let '(s2, eff2) := chat_turns ts' s1 in
      (s2, eff1 ++ eff2)
  end.

(** The network is honest in every turn of the conversation. *)
Fixpoint delivered_all (ts : list TurnInput) (s : System) : Prop :=
  match ts with
  | [] => True
  | t :: ts' => delivered t s /\ delivered_all ts' (chat_turn t s).1
  end.

(* ===================================================================== *)
(** * Events, invariants and sample data *)
(* ===================================================================== *)

(** What can happen to the chat panel. *)
Inductive PanelEvent : Type :=
| TypeInput (value : jsstring)
| PressSend (clk : Clock) (net : Network) (chatId : option jsstring)
| ChatIdChanged (chatId : option jsstring) (history : Outcome (list ChatMessage.t)).

Definition panel_step (p : ChatInterface * UseChat) (ev : PanelEvent)
  : ChatInterface * UseChat :=
  match ev with
  | TypeInput value => (setInput value p.1, p.2)
  | PressSend clk net chatId => (handleSend clk net chatId p.2 p.1).1.1
  | ChatIdChanged chatId history => ((loadHistory_effect chatId history p.1).1, p.2)
  end.

Definition panel_run (evs : list PanelEvent) (p : ChatInterface * UseChat)
  : ChatInterface * UseChat :=
  foldl panel_step p evs.

(** A message of the user carries no sources. *)
Definition user_without_sources (m : ChatMessage.t) : Prop :=
  ChatMessage.message_type m = js "user" -> ChatMessage.sources m = [].

(** The histories the server delivers keep the user messages free of
    sources. *)
Definition history_well_formed (ev : PanelEvent) : Prop :=
  match ev with
  | ChatIdChanged _ (Fulfilled data) => Forall user_without_sources data
  | _ => True
  end.

Definition pdf_type (file : File.t) : Prop := File.type file = js "application/pdf".

(** The files of the upload requests among some effects. *)
Definition upload_requests (effs : list Effect) : list File.t :=
  omap (fun e => match e with Http (POST_upload file) => Some file | _ => None end) effs.

Definition selection_is_pdf (st : DocumentUpload) : Prop :=
  forall file, selectedFile st = Some file -> pdf_type file.

(** The caller owns no session with this id: there is none, or it belongs to
    someone else. *)
Definition not_owned (store : gmap (list N) Backend.ChatSession)
    (chat_id caller : jsstring) : Prop :=
  store !! chat_id = None \/
  exists session, store !! chat_id = Some session /\ Backend.owner_id session <> caller.

(** The turn is sent: the text is not blank. *)
Definition turn_sent (t : TurnInput) : bool := truthy (trim (typed t)).

(** The turn is sent and the back end persists it. *)
Definition turn_persisted (t : TurnInput) : bool :=
  truthy (trim (typed t)) &&
  match Backend.generated (backend_turn t) with Fulfilled _ => true | Rejected => false end.

Definition persisted_turns (ts : list TurnInput) : Z :=
  Z.of_nat (length (List.filter turn_persisted ts)).

(** The conversation runs in chat [c], which holds [n] messages. *)
Definition in_chat (c : jsstring) (n : Z) (s : System) : Prop :=
  currentChatId (page s) = Some c /\
  isLoading (panel s) = false /\
  exists session,
    store s !! c = Some session /\
    Backend.owner_id session = owner s /\
    Backend.message_count session = n /\
    Z.of_nat (length (Backend.messages session)) = n.

(** A response the types of the client admit: one source scored 1.5. *)
Definition overscored_response : ChatResponse.t :=
  {| ChatResponse.response := js "See the refund policy.";
     ChatResponse.chat_id := js "c1";
     ChatResponse.sources :=
       [ {| Source.content := js "Refunds are processed within 14 days";
            Source.metadata := ∅;
            Source.similarity_score := 3 # 2 |} ];
     ChatResponse.timestamp := js "2024-01-01T00:00:00.000Z" |}.

Definition sample_clock : Clock :=
  mkClock 1704067200000 1704067200001 (js "2024-01-01T00:00:00.000Z").

Definition sample_source : Source.t :=
  {| Source.content := js "Refunds are processed within 14 days";
     Source.metadata := {[ js "page" := JNumber 2 ]};
     Source.similarity_score := 9 # 10 |}.

Definition sample_response : ChatResponse.t :=
  {| ChatResponse.response := js "Within 14 days.";
     ChatResponse.chat_id := js "c1";
     ChatResponse.sources := [sample_source];
     ChatResponse.timestamp := js "2024-01-01T00:00:01.000Z" |}.

Definition sample_network : Network :=
  {| post_chat := Fulfilled sample_response; get_chats := Rejected |}.

Definition sample_panel : ChatInterface :=
  {| messages := []; input := js " What is the refund policy? ";
     isLoading := false; loadingHistory := false |}.

Definition blank_panel : ChatInterface :=
  {| messages := []; input := js "   "; isLoading := false; loadingHistory := false |}.

Definition sample_history : list ChatMessage.t :=
  [ newUserMessage sample_clock (js "What is the refund policy?") sample_response;
    newAiMessage sample_clock sample_response ].

Definition sample_events : list PanelEvent :=
  [ ChatIdChanged (Some (js "c1")) (Fulfilled sample_history);
    TypeInput (js "And for digital goods?");
    PressSend sample_clock sample_network (Some (js "c1")) ].

Definition text_file : File.t :=
  {| File.name := js "notes.txt"; File.type := js "text/plain"; File.size := 12 |}.

Definition pdf_file : File.t :=
  {| File.name := js "policy.pdf"; File.type := js "application/pdf"; File.size := 1536 |}.

(** A clock that reads two dates. *)
Definition sample_getTime (s : jsstring) : option Z :=
  if str_eqb s (js "2024-01-01T00:00:00.000Z") then Some 1704067200000
  else if str_eqb s (js "2024-01-02T00:00:00.000Z") then Some 1704153600000
  else None.

Definition older_chat : Chat.t :=
  {| Chat.chat_id := js "c1"; Chat.title := js "Refund policy";
     Chat.created_at := js "2024-01-01T00:00:00.000Z";
     Chat.last_message_at := js "2024-01-01T00:00:00.000Z";
     Chat.message_count := 2 |}.

Definition newer_chat : Chat.t :=
  {| Chat.chat_id := js "c2"; Chat.title := js "Shipping";
     Chat.created_at := js "2024-01-02T00:00:00.000Z";
     Chat.last_message_at := js "2024-01-02T00:00:00.000Z";
     Chat.message_count := 4 |}.

Definition alice_session : Backend.ChatSession :=
  {| Backend.owner_id := js "alice"; Backend.title := js "Refund policy";
     Backend.created_at := js "2024-01-01T00:00:00.000Z";
     Backend.last_message_at := js "2024-01-01T00:00:00.000Z";
     Backend.message_count := 0; Backend.messages := [] |}.

Definition alice_store : gmap (list N) Backend.ChatSession :=
  {[ js "c1" := alice_session ]}.

Definition sample_system : System :=
  {| owner := js "alice"; store := ∅; page := DashboardPage_initial;
     page_hook := useChat_initial; panel := ChatInterface_initial;
     panel_hook := useChat_initial |}.

Definition first_turn : TurnInput :=
  {| typed := js "What is the refund policy?"; clock := sample_clock;
     backend_turn :=
       {| Backend.new_id := js "c1"; Backend.now := js "2024-01-01T00:00:01.000Z";
          Backend.generated := Fulfilled (js "Within 14 days.", [sample_source]) |};
     answer := Fulfilled sample_response;
     panel_listing := Rejected; page_listing := Rejected |}.

Definition second_turn : TurnInput :=
  {| typed := js "And for digital goods?"; clock := sample_clock;
     backend_turn :=
       {| Backend.new_id := js "c2"; Backend.now := js "2024-01-01T00:00:09.000Z";
          Backend.generated := Fulfilled (js "The same.", []) |};
     answer :=
       Fulfilled {| ChatResponse.response := js "The same.";
                    ChatResponse.chat_id := js "c1";
                    ChatResponse.sources := [];
                    ChatResponse.timestamp := js "2024-01-01T00:00:09.000Z" |};
     panel_listing := Rejected; page_listing := Rejected |}.

(** A turn with nothing to send. *)
Definition blank_turn : TurnInput :=
  {| typed := js "  "; clock := sample_clock;
     backend_turn :=
       {| Backend.new_id := js "c3"; Backend.now := js "2024-01-01T00:00:12.000Z";
          Backend.generated := Rejected |};
     answer := Rejected;
     panel_listing := Rejected; page_listing := Rejected |}.

(* ===================================================================== *)
(** * More of the components *)
(* ===================================================================== *)

(** ** chat-sidebar.tsx: [formatDate] *)

Section FormatDate.
(** [new Date(dateString).getTime()], [None] for [NaN]. *)
Variable getTime : jsstring -> option Z.
(** [new Date(dateString).toLocaleDateString()], which the locale decides. *)
Variable toLocaleDateString : jsstring -> jsstring.

(** [diffDays]: whole periods of 24 hours between [now] and the date, in
    either direction; [None] is [NaN]. *)
Definition diffDays (now : Z) (dateString : jsstring) : option Z :=
  match getTime dateString with
  | Some date => Some (Z.abs (now - date) / (1000 * 60 * 60 * 24))
  | None => None
  end.

(** [formatDate(dateString)] when the clock reads [now].  Every comparison
    with [NaN] is false, which leads to the last branch. *)
Definition formatDate (now : Z) (dateString : jsstring) : jsstring :=
  match diffDays now dateString with
  | Some days =>
      if days =? 0 then js "Today"
      else if days =? 1 then js "Yesterday"
      else if days <? 7 then Z_toString days ++ js " days ago"
      else toLocaleDateString dateString
  | None => toLocaleDateString dateString
  end.
End FormatDate.

(** ** chat-interface.tsx: what the message area shows *)

Inductive PanelView : Type :=
| HistorySpinner
| StartConversation
| MessageList (views : list MessageView).

(** [messages.map((message, index) => renderMessage(message, index))] *)
Definition renderMessages (msgs : list ChatMessage.t) : list MessageView :=
  imap (fun index message => renderMessage message (Z.of_nat index)) msgs.

Definition ChatInterface_view (st : ChatInterface) : PanelView :=
  if loadingHistory st then HistorySpinner
  else if Z.of_nat (length (messages st)) =? 0 then StartConversation
  else MessageList (renderMessages (messages st)).

(** A chat request. *)
Definition is_chat_post (e : Effect) : bool :=
  match e with Http (POST_chat _ _ _) => true | _ => false end.

(** A request for the list of chats. *)
Definition is_chats_get (e : Effect) : bool :=
  match e with Http GET_chats => true | _ => false end.

(** Any request. *)
Definition is_request (e : Effect) : bool :=
  match e with Http _ => true | _ => false end.

(** ** dashboard/page.tsx: the page around its children *)

(** [handleUploadSuccess] *)
Definition handleUploadSuccess (d : DashboardPage) : DashboardPage :=
  {| currentChatId := currentChatId d; isSidebarOpen := isSidebarOpen d;
     isUploadDialogOpen := false |}.

(** The title above the chat: [currentChatId ? 'Chat Session' : 'New Chat']. *)
Definition header_title (d : DashboardPage) : jsstring :=
  if truthy_opt (currentChatId d) then js "Chat Session" else js "New Chat".

(** A click on "Upload Document" in the dialog of the page: [DocumentUpload]
    runs [handleUpload] and calls the page's [handleUploadSuccess] through
    [onUploadSuccess]. *)
Definition dialog_upload (resp : Outcome unit) (d : DashboardPage) (u : DocumentUpload)
  : DashboardPage * DocumentUpload * list Effect :=
  let '(u', eff, succeeded) := handleUpload resp u in
  (if succeeded then handleUploadSuccess d else d, u', eff).

(** The page with the sidebar.  [DashboardPage] and [ChatSidebar] each call
    [useChat()], so each has its own [chats]; the sidebar is rendered from
    the [chats] and [loading] of the page's instance. *)
Record DashboardTree : Type := mkDashboardTree {
  tree_page : DashboardPage;
  tree_page_hook : UseChat;
  tree_sidebar_hook : UseChat
}.

Definition sidebar_view (getTime : jsstring -> option Z) (t : DashboardTree)
  : SidebarView :=
  ChatSidebar getTime (chats (tree_page_hook t)) (loading (tree_page_hook t)).

(** A click on "Delete Chat" of a card: [handleDeleteChat] runs in the
    sidebar with the page's [currentChatId], and [onSelectChat] is the page's
    [handleSelectChat]. *)
Definition click_delete (chatId : jsstring) (resp : Outcome unit) (t : DashboardTree)
  : DashboardTree * list Effect :=
  let '(hs', eff, selected) :=
    handleDeleteChat chatId resp (currentChatId (tree_page t)) (tree_sidebar_hook t) in
  ({| tree_page := match selected with
                   | Some c => handleSelectChat c (tree_page t)
                   | None => tree_page t
                   end;
      tree_page_hook := tree_page_hook t;
      tree_sidebar_hook := hs' |}, eff).

(** ** hooks/use-chat.ts: refreshing the list *)

(** [refetchChats()] called once for each outcome, in order. *)
Definition refetch_all (resps : list (Outcome (list Chat.t))) (h : UseChat) : UseChat :=
  foldl (fun h resp => (fetchChats resp h).1) h resps.

(** The data of the last request that succeeded. *)
Fixpoint last_fulfilled {A : Type} (resps : list (Outcome A)) (default : A) : A :=
  match resps with
  | [] => default
  | Fulfilled data :: resps' => last_fulfilled resps' data
  | Rejected :: resps' => last_fulfilled resps' default
  end.

(** ** dashboard/page.tsx, the variant with the token dialog *)

Record TokenDialog : Type := mkTokenDialog {
  isTokenDialogOpen : bool;
  token : jsstring
}.

Definition TokenDialog_initial : TokenDialog :=
  {| isTokenDialogOpen := false; token := [] |}.

Inductive TokenEffect : Type :=
| ConsoleLog (label value : jsstring)
| TokenConsoleError (label : jsstring)
| TokenToastSuccess (msg : jsstring)
| TokenToastError (msg : jsstring)
| ClipboardWrite (text : jsstring).

(** [handleGetToken]: [result] is the outcome of [getToken()], a token or
    [null]. *)
Definition handleGetToken (result : Outcome (option jsstring)) (st : TokenDialog)
  : TokenDialog * list TokenEffect :=
  match result with
  | Fulfilled authToken =>
      if truthy_opt authToken then
        let t := match authToken with Some t => t | None => [] end in
        ({| isTokenDialogOpen := true; token := t |},
         [ConsoleLog (js "Clerk Token:") t;
          TokenToastSuccess (js "Token retrieved successfully!")])
      else (st, [TokenToastError (js "No token available")])
  | Rejected =>
      (st, [TokenConsoleError (js "Error getting token:");
            TokenToastError (js "Failed to get token")])
  end.

(** [handleCopyToken] *)
Definition handleCopyToken (st : TokenDialog) : TokenDialog * list TokenEffect :=
  (st, [ClipboardWrite (token st); TokenToastSuccess (js "Token copied to clipboard!")]).

(** The token dialog closes through its Close button or [onOpenChange]. *)
Definition closeTokenDialog (st : TokenDialog) : TokenDialog :=
  {| isTokenDialogOpen := false; token := token st |}.

(** What the user can do about the token.  The "Copy Token" button is part
    of the dialog and can be clicked only while the dialog is open. *)
Inductive TokenEvent : Type :=
| ClickGetToken (result : Outcome (option jsstring))
| ClickCopyToken
| CloseTokenDialog.

Definition token_step (ev : TokenEvent) (st : TokenDialog)
  : TokenDialog * list TokenEffect :=
  match ev with
  | ClickGetToken result => handleGetToken result st
  | ClickCopyToken => if isTokenDialogOpen st then handleCopyToken st else (st, [])
  | CloseTokenDialog => (closeTokenDialog st, [])
  end.

Fixpoint token_run (evs : list TokenEvent) (st : TokenDialog)
  : TokenDialog * list TokenEffect :=
  match evs with
  | [] => (st, [])
  | ev :: evs' =>
      let '(st1, eff1) := token_step ev st in
      let '(st2, eff2) := token_run evs' st1 in
      (st2, eff1 ++ eff2)
  end.

(** The texts written to the clipboard, and the values logged. *)
Definition clipboard_writes (effs : list TokenEffect) : list jsstring :=
  omap (fun e => match e with ClipboardWrite t => Some t | _ => None end) effs.

Definition logged_values (effs : list TokenEffect) : list jsstring :=
  omap (fun e => match e with ConsoleLog _ v => Some v | _ => None end) effs.

(** ** Predicates and sample data for the properties of these components *)

(** The filter of [deleteChat]: [chat.chat_id !== chatId]. *)
Definition other_chat (chatId : jsstring) (chat : Chat.t) : bool :=
  negb (str_eqb (Chat.chat_id chat) chatId).

(** The code unit of a decimal digit. *)
Definition is_digit (c : N) : Prop := (48 <= c <= 57)%N.

(** The dialog, when open, holds a token that is not empty and was logged. *)
Definition token_invariant (st : TokenDialog) (logged : list jsstring) : Prop :=
  isTokenDialogOpen st = true -> token st <> [] /\ In (token st) logged.

Definition failing_network : Network :=
  {| post_chat := Rejected; get_chats := Rejected |}.

Definition sample_tree : DashboardTree :=
  {| tree_page := handleSelectChat (js "c1") DashboardPage_initial;
     tree_page_hook := {| chats := [older_chat; newer_chat]; loading := false; error := None |};
     tree_sidebar_hook := {| chats := [older_chat; newer_chat]; loading := false; error := None |} |}.

Definition selected_upload : DocumentUpload :=
  {| selectedFile := Some pdf_file; isUploading := false |}.

(** A chat with the time of [newer_chat], listed after it. *)
Definition twin_chat : Chat.t :=
  {| Chat.chat_id := js "c4"; Chat.title := js "Returns";
     Chat.created_at := js "2024-01-02T00:00:00.000Z";
     Chat.last_message_at := js "2024-01-02T00:00:00.000Z";
     Chat.message_count := 2 |}.

Definition overscored_source : Source.t :=
  {| Source.content := js "Refunds are processed within 14 days";
     Source.metadata := ∅;
     Source.similarity_score := 3 # 2 |}.

Definition token_events : list TokenEvent :=
  [ ClickGetToken (Fulfilled (Some (js "eyJhbGciOi")));
    ClickCopyToken;
    ClickGetToken Rejected ].

(* ===================================================================== *)
(** * Properties of [trim] *)
(* ===================================================================== *)

Lemma trimStart_nil_iff (s : jsstring) : trimStart s = [] <-> blank s.
Proof.
  unfold blank. induction s as [|c s IH]; simpl.
  - split; [constructor | reflexivity].
  - destruct (is_white_space c) eqn:Hc.
    + rewrite IH. split.
      * intros Hs. constructor; assumption.
      * intros Hs. inversion Hs; assumption.
    + split; [discriminate |].
      intros Hs. inversion Hs as [|? ? Hc' _]. congruence.
Qed.

Lemma blank_rev (s : jsstring) : blank (rev s) <-> blank s.
Proof.
  unfold blank. split; intros H.
  - rewrite <- (rev_involutive s). apply List.Forall_rev, H.
  - apply List.Forall_rev, H.
Qed.

Lemma rev_nil_inv {A} (l : list A) : rev l = [] -> l = [].
Proof.
  intros H. rewrite <- (rev_involutive l), H. reflexivity.
Qed.

(** What is left of a string after [trimStart] is empty or starts with a
    character that is not white space. *)
Lemma trimStart_blank_nil (s : jsstring) : blank (trimStart s) -> trimStart s = [].
Proof.
  induction s as [|c s IH]; simpl; [reflexivity |].
  destruct (is_white_space c) eqn:Hc; [exact IH |].
  intros Hs. inversion Hs as [|? ? Hc' _]. congruence.
Qed.

Lemma trim_nil_iff (s : jsstring) : trim s = [] <-> blank s.
Proof.
  unfold trim, trimEnd. split.
  - intros H. apply rev_nil_inv, trimStart_nil_iff in H.
    apply (proj1 (blank_rev _)) in H.
    apply trimStart_nil_iff, trimStart_blank_nil, H.
  - intros H. apply trimStart_nil_iff in H. rewrite H. reflexivity.
Qed.

Lemma truthy_false_iff (s : jsstring) : truthy s = false <-> s = [].
Proof. destruct s; simpl; split; congruence. Qed.

(** The send button is disabled exactly for a blank input or a pending turn. *)
Lemma send_disabled_iff (st : ChatInterface) :
  send_disabled st = true <-> blank (input st) \/ isLoading st = true.
Proof.
  unfold send_disabled. rewrite orb_true_iff, negb_true_iff, truthy_false_iff, trim_nil_iff.
  reflexivity.
Qed.

(* ===================================================================== *)
(** * [handleSend] *)
(* ===================================================================== *)

Lemma handleSend_disabled clk net chatId h st :
  send_disabled st = true -> handleSend clk net chatId h st = (st, h, [], None).
Proof. intros H. unfold handleSend, handleSend_begin. rewrite H. reflexivity. Qed.

(** An enabled send with the POST answered by [response]. *)
Lemma handleSend_fulfilled clk net chatId h st response :
  send_disabled st = false ->
  post_chat net = Fulfilled response ->
  handleSend clk net chatId h st =
    ({| messages := messages st ++
                      [newUserMessage clk (trim (input st)) response;
                       newAiMessage clk response];
        input := []; isLoading := false; loadingHistory := loadingHistory st |},
     (fetchChats (get_chats net) h).1,
     Http (POST_chat (trim (input st)) chatId true) :: (fetchChats (get_chats net) h).2 ++ [],
     if negb (truthy_opt chatId) then Some (ChatResponse.chat_id response) else None).
Proof.
  intros Hen Hpost. unfold handleSend, handleSend_begin, sendMessage.
  rewrite Hen, Hpost. destruct (fetchChats (get_chats net) h) as [h' eff]. reflexivity.
Qed.

(** An enabled send with the POST failing. *)
Lemma handleSend_rejected clk net chatId h st :
  send_disabled st = false ->
  post_chat net = Rejected ->
  handleSend clk net chatId h st =
    ({| messages := messages st; input := []; isLoading := false;
        loadingHistory := loadingHistory st |},
     h,
     [Http (POST_chat (trim (input st)) chatId true);
      ConsoleError (js "Failed to send message:");
      ToastError (js "Failed to send message")],
     None).
Proof.
  intros Hen Hpost. unfold handleSend, handleSend_begin, sendMessage.
  rewrite Hen, Hpost. reflexivity.
Qed.

(** C1.  A chat turn commits the user message and the assistant message as a
    pair or not at all.  While the request is pending the message list is the
    old one; when [sendMessage] yields a response the list has grown by
    exactly the user message followed by the assistant message; when it
    yields [null] the list is the old one.  The same holds for the settling
    half of [handleSend] on whatever state it finds, also when the awaited
    promise rejects. *)
Theorem turn_commits_pair_or_nothing
    (clk : Clock) (net : Network) (chatId : option jsstring)
    (h : UseChat) (st : ChatInterface) :
  send_disabled st = false ->
  let userMessage := trim (input st) in
  let pending := (handleSend_begin st).1 in
  let settled := (handleSend clk net chatId h st).1.1.1 in
  messages pending = messages st /\
  match (sendMessage userMessage chatId (post_chat net) (get_chats net) h).1.1 with
  | Some response =>
      messages settled =
        messages st ++ [newUserMessage clk userMessage response;
                        newAiMessage clk response] /\
      length (messages settled) = (length (messages st) + 2)%nat /\
      ChatMessage.message_type (newUserMessage clk userMessage response) = js "user" /\
      ChatMessage.message_type (newAiMessage clk response) = js "assistant"
  | None => messages settled = messages st
  end /\
  forall (result : Outcome (option ChatResponse.t)) (st' : ChatInterface),
    let after := (handleSend_resume clk chatId userMessage result st').1.1 in
    match result with
    | Fulfilled (Some response) =>
        messages after =
          messages st' ++ [newUserMessage clk userMessage response;
                           newAiMessage clk response]
    | _ => messages after = messages st'
    end.
Proof.
  intros Hen userMessage pending settled. subst userMessage pending settled.
  split; [| split].
  - unfold handleSend_begin. rewrite Hen. reflexivity.
  - destruct (post_chat net) as [response|] eqn:Hpost.
    + rewrite (handleSend_fulfilled _ _ _ _ _ response Hen Hpost).
      unfold sendMessage.
      destruct (fetchChats (get_chats net) h) as [h' eff]. simpl.
      repeat split. rewrite length_app. reflexivity.
    + rewrite (handleSend_rejected _ _ _ _ _ Hen Hpost). reflexivity.
  - intros [[response|]|] st'; reflexivity.
Qed.

(** C4.  A query that is empty or only white space is rejected on the spot:
    the send button is disabled, and [handleSend], also when reached through
    the Enter key, issues no request, creates no message and leaves the
    component state and the hook state (the session list) as they were. *)
Theorem blank_query_rejected
    (clk : Clock) (net : Network) (chatId : option jsstring)
    (h : UseChat) (st : ChatInterface) :
  blank (input st) ->
  send_disabled st = true /\
  handleSend clk net chatId h st = (st, h, [], None) /\
  forall key shiftKey,
    handleKeyPress key shiftKey clk net chatId h st = (st, h, [], None).
Proof.
  intros Hblank.
  assert (Hdis : send_disabled st = true) by (apply send_disabled_iff; left; exact Hblank).
  split; [exact Hdis |]. split.
  - apply handleSend_disabled, Hdis.
  - intros key shiftKey. unfold handleKeyPress.
    destruct (str_eqb key (js "Enter") && negb shiftKey); [| reflexivity].
    apply handleSend_disabled, Hdis.
Qed.

(* ===================================================================== *)
(** * [getChatHistory] *)
(* ===================================================================== *)

(** C9.  A failed history request does not propagate: [getChatHistory]
    returns the empty array, the value it returns for a chat without
    messages, and the panel ends in the same state in both cases. *)
Theorem failed_history_reads_as_empty (chatId : jsstring) (st : ChatInterface) :
  (getChatHistory chatId Rejected).1 = [] /\
  (getChatHistory chatId Rejected).1 = (getChatHistory chatId (Fulfilled [])).1 /\
  (loadHistory_effect (Some chatId) Rejected st).1 =
    (loadHistory_effect (Some chatId) (Fulfilled []) st).1.
Proof.
  repeat split. unfold loadHistory_effect. destruct (truthy chatId); reflexivity.
Qed.

(* ===================================================================== *)
(** * Messages and their sources *)
(* ===================================================================== *)


Lemma handleSend_messages clk net chatId h st :
  messages (handleSend clk net chatId h st).1.1.1 = messages st \/
  exists response,
    messages (handleSend clk net chatId h st).1.1.1 =
      messages st ++ [newUserMessage clk (trim (input st)) response;
                      newAiMessage clk response].
Proof.
  destruct (send_disabled st) eqn:Hen.
  - left. rewrite handleSend_disabled by exact Hen. reflexivity.
  - destruct (post_chat net) as [response|] eqn:Hpost.
    + right. exists response.
      rewrite (handleSend_fulfilled _ _ _ _ _ response Hen Hpost). reflexivity.
    + left. rewrite (handleSend_rejected _ _ _ _ _ Hen Hpost). reflexivity.
Qed.

Lemma new_pair_well_formed clk userMessage response :
  Forall user_without_sources
    [newUserMessage clk userMessage response; newAiMessage clk response].
Proof.
  repeat constructor.
  intros Hty. vm_compute in Hty. discriminate.
Qed.

Lemma panel_step_invariant p ev :
  history_well_formed ev ->
  Forall user_without_sources (messages p.1) ->
  Forall user_without_sources (messages (panel_step p ev).1).
Proof.
  intros Hev Hinv. destruct ev as [value | clk net chatId | chatId history]; simpl.
  - exact Hinv.
  - destruct (handleSend_messages clk net chatId p.2 p.1) as [Heq | [response Heq]].
    + replace (messages (handleSend clk net chatId p.2 p.1).1.1.1) with (messages p.1).
      exact Hinv.
    + replace (messages (handleSend clk net chatId p.2 p.1).1.1.1)
        with (messages p.1 ++ [newUserMessage clk (trim (input p.1)) response;
                               newAiMessage clk response]).
      apply Forall_app. split; [exact Hinv | apply new_pair_well_formed].
  - unfold loadHistory_effect.
    destruct chatId as [c|]; [destruct (truthy c) |]; try (simpl; constructor).
    destruct history as [data|]; simpl; [exact Hev | constructor].
Qed.

Lemma panel_run_invariant evs : forall p,
  Forall history_well_formed evs ->
  Forall user_without_sources (messages p.1) ->
  Forall user_without_sources (messages (panel_run evs p).1).
Proof.
  induction evs as [|ev evs IH]; intros p Hevs Hinv; simpl.
  - exact Hinv.
  - inversion Hevs as [|? ? Hev Hevs']; subst.
    apply IH; [exact Hevs' |]. apply panel_step_invariant; assumption.
Qed.

(** C6.  A message with role user has no sources; only assistant messages
    carry them.  The pair [handleSend] builds for a turn has an empty
    [sources] on the user message and the response's sources on the assistant
    message; as long as the loaded histories respect the rule, so does every
    message list the panel reaches; and [renderMessage] shows no sources
    block for a user message. *)
Theorem user_messages_carry_no_sources :
  (forall clk userMessage response,
      ChatMessage.message_type (newUserMessage clk userMessage response) = js "user" /\
      ChatMessage.sources (newUserMessage clk userMessage response) = [] /\
      ChatMessage.message_type (newAiMessage clk response) = js "assistant" /\
      ChatMessage.sources (newAiMessage clk response) = ChatResponse.sources response) /\
  (forall evs,
      Forall history_well_formed evs ->
      Forall user_without_sources
        (messages (panel_run evs (ChatInterface_initial, useChat_initial)).1)) /\
  (forall m index,
      ChatMessage.message_type m = js "user" ->
      view_sources (renderMessage m index) = None).
Proof.
  split; [| split].
  - intros. repeat split.
  - intros evs Hevs. apply panel_run_invariant; [exact Hevs | constructor].
  - intros m index Hty. unfold renderMessage, str_eqb. simpl.
    rewrite bool_decide_eq_true_2 by exact Hty. reflexivity.
Qed.

(* ===================================================================== *)
(** * The match badge of a source *)
(* ===================================================================== *)

Lemma Math_round_percent_bounds (s : Q) :
  (0 <= s)%Q -> (s <= 1)%Q -> 0 <= Math_round (s * 100)%Q <= 100.
Proof.
  intros H0 H1. unfold Math_round. split.
  - change 0 with (Qfloor 0). apply Qfloor_resp_le.
    apply Qle_trans with (0 * 100 + 0)%Q; [apply Qle_refl |].
    apply Qplus_le_compat; [| discriminate].
    apply Qmult_le_compat_r; [exact H0 | discriminate].
  - change 100 with (Qfloor (1 * 100 + (1 # 2))) at 2. apply Qfloor_resp_le.
    apply Qplus_le_compat; [| apply Qle_refl].
    apply Qmult_le_compat_r; [exact H1 | discriminate].
Qed.

(** C7, as the client has it.  The client takes [similarity_score] as it
    comes.  For a message whose sources all have a score between 0 and 1,
    every badge [renderMessage] shows is a percentage between 0 and 100. *)
Theorem unit_scores_render_as_percentages
    (message : ChatMessage.t) (index : Z) (views : list SourceView) :
  Forall (fun source => (0 <= Source.similarity_score source)%Q /\
                        (Source.similarity_score source <= 1)%Q)
         (ChatMessage.sources message) ->
  view_sources (renderMessage message index) = Some views ->
  views = List.map renderSource (ChatMessage.sources message) /\
  Forall (fun v => 0 <= badge_percent v <= 100) views.
Proof.
  intros Hscores Hview. unfold renderMessage in Hview. simpl in Hview.
  destruct (negb _ && _); [| discriminate].
  injection Hview as <-. split; [reflexivity |].
  induction Hscores as [|source l [H0 H1] _ IH]; simpl; constructor.
  - apply Math_round_percent_bounds; assumption.
  - exact IH.
Qed.


(** The assistant message [handleSend] builds from [overscored_response]
    carries a source whose score is above 1, and its badge reads 150. *)
Lemma overscored_source_renders_150 :
  let message :=
    newAiMessage (mkClock 1704067200000 1704067200000 (js "2024-01-01T00:00:00.000Z"))
                 overscored_response in
  exists source,
    ChatMessage.sources message = [source] /\
    ~ (Source.similarity_score source <= 1)%Q /\
    view_sources (renderMessage message 1) =
      Some [ {| badge_percent := 150; page_label := None;
                source_text := js "Refunds are processed within 14 days" |} ] /\
    ~ (badge_percent (renderSource source) <= 100).
Proof.
  simpl. eexists. split; [reflexivity |]. split; [| split].
  - simpl. intros H. apply H. reflexivity.
  - reflexivity.
  - intros H. apply H. reflexivity.
Qed.

(* ===================================================================== *)
(** * [DocumentUpload]: only PDF files are uploaded *)
(* ===================================================================== *)


Lemma is_pdf_true (file : File.t) : is_pdf file = true <-> pdf_type file.
Proof. unfold is_pdf, str_eqb, pdf_type. apply bool_decide_eq_true. Qed.

Lemma upload_step_invariant ev st :
  selection_is_pdf st ->
  selection_is_pdf (upload_step ev st).1 /\
  Forall pdf_type (upload_requests (upload_step ev st).2).
Proof.
  intros Hinv. destruct ev as [files | resp |]; simpl.
  - unfold onDrop. destruct files as [|file rest].
    + split; [exact Hinv | constructor].
    + destruct (is_pdf file) eqn:Hpdf; simpl.
      * split; [| constructor].
        intros f [= <-]. apply is_pdf_true, Hpdf.
      * split; [exact Hinv | constructor].
  - unfold handleUpload. destruct (selectedFile st) as [file|] eqn:Hsel.
    + specialize (Hinv file Hsel).
      destruct resp as [[]|]; simpl.
      * split; [intros f; discriminate | repeat constructor; exact Hinv].
      * split; [intros f [= <-]; exact Hinv | repeat constructor; exact Hinv].
    + simpl. split; [| constructor].
      intros f Hf. rewrite Hsel in Hf. discriminate.
  - split; [intros f; discriminate | constructor].
Qed.

Lemma upload_run_invariant evs : forall st,
  selection_is_pdf st ->
  selection_is_pdf (upload_run evs st).1 /\
  Forall pdf_type (upload_requests (upload_run evs st).2).
Proof.
  induction evs as [|ev evs IH]; intros st Hinv; simpl.
  - split; [exact Hinv | constructor].
  - destruct (upload_step_invariant ev st Hinv) as [Hinv1 Hreq1].
    destruct (upload_step ev st) as [st1 eff1]. simpl in *.
    destruct (IH st1 Hinv1) as [Hinv2 Hreq2].
    destruct (upload_run evs st1) as [st2 eff2]. simpl in *.
    split; [exact Hinv2 |].
    unfold upload_requests. rewrite omap_app. apply Forall_app. split; assumption.
Qed.

(** C8.  A dropped file whose type is not [application/pdf] is rejected: the
    selection stays as it was and nothing is sent, only an error toast is
    shown.  Whatever the user does with the dialog, the selected file is a
    PDF and every upload request carries a PDF. *)
Theorem only_pdf_files_are_uploaded :
  (forall file rest st,
      File.type file <> js "application/pdf" ->
      onDrop (file :: rest) st = (st, [ToastError (js "Please select a PDF file")]) /\
      upload_requests (onDrop (file :: rest) st).2 = []) /\
  (forall evs,
      selection_is_pdf (upload_run evs DocumentUpload_initial).1 /\
      Forall pdf_type (upload_requests (upload_run evs DocumentUpload_initial).2)).
Proof.
  split.
  - intros file rest st Hty. unfold onDrop.
    destruct (is_pdf file) eqn:Hpdf.
    + apply is_pdf_true in Hpdf. contradiction.
    + split; reflexivity.
  - intros evs. apply upload_run_invariant. intros f; discriminate.
Qed.

(* ===================================================================== *)
(** * [ChatSidebar]: most recent chat first *)
(* ===================================================================== *)

Section ArraySortFacts.
Context {A : Type} (compareFn : A -> A -> Z).
(** [compareFn] orders the elements satisfying [P] by decreasing [key]. *)
Context (P : A -> Prop) (key : A -> Z).
Hypothesis compareFn_key :
  forall x y, P x -> P y -> (compareFn x y <= 0 <-> key y <= key x).

Lemma sort_insert_perm x l : sort_insert compareFn x l ≡ₚ x :: l.
Proof.
  induction l as [|y l IH]; simpl; [reflexivity |].
  destruct (compareFn x y <=? 0); [reflexivity |].
  rewrite IH. apply Permutation_swap.
Qed.

Lemma Array_sort_perm l : Array_sort compareFn l ≡ₚ l.
Proof.
  induction l as [|x l IH]; simpl; [reflexivity |].
  rewrite sort_insert_perm, IH. reflexivity.
Qed.

Lemma sort_insert_HdRel z x l :
  (not_before key) z x -> HdRel (not_before key) z l ->
  HdRel (not_before key) z (sort_insert compareFn x l).
Proof.
  intros Hzx Hzl. destruct l as [|y l]; simpl.
  - constructor. exact Hzx.
  - destruct (compareFn x y <=? 0); constructor; [exact Hzx |].
    inversion Hzl. assumption.
Qed.

Lemma sort_insert_Sorted x l :
  P x -> Forall P l -> Sorted (not_before key) l ->
  Sorted (not_before key) (sort_insert compareFn x l).
Proof.
  intros Hx Hl Hs. induction Hs as [|y l Hs IH Hhd]; simpl.
  - repeat constructor.
  - inversion Hl as [|? ? Hy Hl']; subst.
    destruct (compareFn x y <=? 0) eqn:Hc.
    + constructor; [constructor; assumption |].
      constructor. apply compareFn_key; [assumption .. |]. apply Z.leb_le, Hc.
    + constructor; [apply IH, Hl' |].
      apply sort_insert_HdRel; [| exact Hhd].
      unfold not_before. apply Z.leb_gt in Hc.
      destruct (Z.le_gt_cases (key x) (key y)) as [Hle | Hgt]; [exact Hle |].
      exfalso. apply (Z.lt_irrefl 0). eapply Z.lt_le_trans; [exact Hc |].
      apply compareFn_key; [assumption .. |]. apply Z.lt_le_incl, Hgt.
Qed.

Lemma Array_sort_Forall l : Forall P l -> Forall P (Array_sort compareFn l).
Proof. intros H. rewrite Array_sort_perm. exact H. Qed.

Lemma Array_sort_Sorted l :
  Forall P l -> Sorted (not_before key) (Array_sort compareFn l).
Proof.
  induction l as [|x l IH]; intros Hl; simpl; [constructor |].
  inversion Hl as [|? ? Hx Hl']; subst.
  apply sort_insert_Sorted; [exact Hx | apply Array_sort_Forall, Hl' | apply IH, Hl'].
Qed.

Lemma Sorted_adjacent l : Sorted (not_before key) l ->
  forall (i : nat) x y, l !! i = Some x -> l !! S i = Some y -> (not_before key) x y.
Proof.
  induction 1 as [|z l Hs IH Hhd]; intros i x y Hx Hy; [discriminate |].
  destruct i as [|i]; simpl in *.
  - injection Hx as <-. destruct l as [|w l]; [discriminate |].
    injection Hy as <-. inversion Hhd. assumption.
  - eapply IH; eassumption.
Qed.
End ArraySortFacts.

Section ChatSidebarFacts.
Variable getTime : jsstring -> option Z.

Lemma compare_chats_key a b :
  dated getTime a -> dated getTime b ->
  (compare_chats getTime a b <= 0 <-> time_of getTime b <= time_of getTime a).
Proof.
  unfold dated, compare_chats, time_difference, time_of.
  intros [ta ->] [tb ->]. simpl. split; intros H.
  - apply Z.le_sub_0, H.
  - apply Z.le_sub_0, H.
Qed.

Lemma sortedChats_adjacent chats (i : nat) earlier later :
  Forall (dated getTime) chats ->
  sortedChats getTime chats !! i = Some earlier ->
  sortedChats getTime chats !! S i = Some later ->
  time_of getTime later <= time_of getTime earlier.
Proof.
  intros Hd He Hl.
  change (not_before (time_of getTime) earlier later).
  eapply Sorted_adjacent; [| exact He | exact Hl].
  unfold sortedChats.
  apply (Array_sort_Sorted _ (dated getTime)); [apply compare_chats_key | exact Hd].
Qed.
End ChatSidebarFacts.

(** C3.  The chats the sidebar shows are the chats it was given, most recent
    first: of two neighbours in the displayed sequence the earlier one has a
    [last_message_at] greater than or equal to that of the later one.  The
    [last_message_at] of every chat is a date the browser can read. *)
Theorem sidebar_lists_most_recent_first
    (getTime : jsstring -> option Z) (chats : list Chat.t) (loading : bool)
    (cards : list Chat.t) :
  Forall (dated getTime) chats ->
  ChatSidebar getTime chats loading = ChatList cards ->
  cards ≡ₚ chats /\
  forall (i : nat) earlier later,
    cards !! i = Some earlier -> cards !! S i = Some later ->
    exists t1 t2,
      getTime (Chat.last_message_at earlier) = Some t1 /\
      getTime (Chat.last_message_at later) = Some t2 /\
      t2 <= t1.
Proof.
  intros Hd Hview. unfold ChatSidebar in Hview.
  destruct loading; [discriminate |].
  destruct (Z.of_nat (length chats) =? 0); [discriminate |].
  injection Hview as <-. split.
  - apply Array_sort_perm.
  - intros i earlier later He Hl.
    pose proof (sortedChats_adjacent getTime chats i earlier later Hd He Hl) as Hle.
    assert (Hall : Forall (dated getTime) (sortedChats getTime chats))
      by (unfold sortedChats; rewrite Array_sort_perm; exact Hd).
    rewrite Forall_lookup in Hall.
    destruct (Hall _ _ He) as [t1 H1]. destruct (Hall _ _ Hl) as [t2 H2].
    exists t1, t2. unfold time_of in Hle. rewrite H1, H2 in Hle.
    repeat split; assumption.
Qed.

(* ===================================================================== *)
(** * Decimal numerals *)
(* ===================================================================== *)

Lemma js_cons (a : ascii) (s : string) : js (String a s) = N_of_ascii a :: js s.
Proof. reflexivity. Qed.

Lemma js_inj (s s' : string) : js s = js s' -> s = s'.
Proof.
  revert s'. induction s as [|a s IH]; intros [|a' s'] H; try discriminate.
  - reflexivity.
  - rewrite !js_cons in H. injection H as Ha Hs. f_equal.
    + rewrite <- (ascii_N_embedding a), <- (ascii_N_embedding a'), Ha. reflexivity.
    + apply IH, Hs.
Qed.

Lemma Z_to_int_proper (z : Z) :
  Z.to_int z <> Decimal.Pos Decimal.Nil /\ Z.to_int z <> Decimal.Neg Decimal.Nil.
Proof.
  destruct z as [|p|p]; simpl; split; try discriminate;
    intros [= H]; exact (DecimalPos.Unsigned.to_uint_nonnil p H).
Qed.

(** The decimal notation determines the integer. *)
Lemma Z_toString_inj (z z' : Z) : Z_toString z = Z_toString z' -> z = z'.
Proof.
  unfold Z_toString. intros H. apply js_inj in H.
  apply DecimalZ.to_int_inj.
  destruct (Z_to_int_proper z) as [H1 H2], (Z_to_int_proper z') as [H1' H2'].
  apply (f_equal NilZero.int_of_string) in H.
  rewrite !NilZero.isi in H by assumption. injection H as H. exact H.
Qed.

Lemma string_of_uint_digits (d : Decimal.uint) :
  Forall is_digit (js (NilEmpty.string_of_uint d)).
Proof.
  induction d; simpl NilEmpty.string_of_uint; try rewrite js_cons;
    constructor; try assumption; unfold is_digit; simpl; lia.
Qed.

(** A natural number is written with digits only. *)
Lemma Z_toString_digits (i : nat) : Forall is_digit (Z_toString (Z.of_nat i)).
Proof.
  unfold Z_toString. destruct (Z.of_nat i) as [|p|p] eqn:Hi; simpl.
  - repeat constructor; unfold is_digit; simpl; lia.
  - pose proof (string_of_uint_digits (Pos.to_uint p)) as Hd.
    unfold NilZero.string_of_uint.
    destruct (Pos.to_uint p); try exact Hd.
    repeat constructor; unfold is_digit; simpl; lia.
  - lia.
Qed.

Lemma js_to_string_js (str : string) : js_to_string (js str) = Some str.
Proof.
  unfold js_to_string.
  assert (Hb : forallb (fun c => (c <? 256)%N) (js str) = true).
  { induction str as [|a str IH]; [reflexivity |].
    rewrite js_cons. simpl. rewrite IH, andb_true_r.
    apply N.ltb_lt, N_ascii_bounded. }
  rewrite Hb. f_equal. clear Hb.
  induction str as [|a str IH]; [reflexivity |].
  rewrite js_cons. simpl. rewrite ascii_N_embedding. f_equal. exact IH.
Qed.

(** The decimal notation of a natural number reads back as that number. *)
Lemma digits_value_Z_toString (z : Z) : 0 <= z -> digits_value (Z_toString z) = Some z.
Proof.
  intros Hz. unfold digits_value, Z_toString. rewrite js_to_string_js.
  destruct z as [|p|p]; [reflexivity | | lia].
  simpl. rewrite NilZero.usu by apply DecimalPos.Unsigned.to_uint_nonnil.
  unfold Z.of_uint. rewrite DecimalPos.Unsigned.of_to. reflexivity.
Qed.

Lemma Z_toString_nonneg_digits (z : Z) : 0 <= z -> Forall is_digit (Z_toString z).
Proof. intros Hz. rewrite <- (Z2Nat.id z Hz). apply Z_toString_digits. Qed.

Lemma digits_without_point (s : jsstring) : Forall is_digit s -> ~ In 46%N s.
Proof.
  intros Hd Hin. rewrite List.Forall_forall in Hd. specialize (Hd _ Hin).
  unfold is_digit in Hd. lia.
Qed.

Lemma split_at_point_whole (w : jsstring) :
  ~ In 46%N w -> split_at_point w = (w, None).
Proof.
  induction w as [|c w IH]; intros Hnot; [reflexivity |]. simpl.
  destruct (c =? 46)%N eqn:Hc.
  - apply N.eqb_eq in Hc. exfalso. apply Hnot. left. exact Hc.
  - rewrite IH by (intros Hin; apply Hnot; right; exact Hin). reflexivity.
Qed.

Lemma split_at_point_fraction (w f : jsstring) :
  ~ In 46%N w -> split_at_point (w ++ 46%N :: f) = (w, Some f).
Proof.
  induction w as [|c w IH]; intros Hnot; [reflexivity |]. simpl.
  destruct (c =? 46)%N eqn:Hc.
  - apply N.eqb_eq in Hc. exfalso. apply Hnot. left. exact Hc.
  - rewrite IH by (intros Hin; apply Hnot; right; exact Hin). reflexivity.
Qed.

Lemma one_digit_cases (d : Z) : 0 <= d <= 9 ->
  d = 0 \/ d = 1 \/ d = 2 \/ d = 3 \/ d = 4 \/ d = 5 \/ d = 6 \/ d = 7 \/ d = 8 \/ d = 9.
Proof. lia. Qed.

Lemma one_digit_length (d : Z) : 0 <= d <= 9 -> length (Z_toString d) = 1%nat.
Proof.
  intros Hd. destruct (one_digit_cases d Hd) as [-> | [-> | [-> | [-> | [-> |
    [-> | [-> | [-> | [-> | ->]]]]]]]]]; reflexivity.
Qed.

Lemma two_digits_length (a b : Z) : 0 <= a <= 9 -> 0 <= b <= 9 ->
  length (Z_toString a ++ Z_toString b) = 2%nat.
Proof.
  intros Ha Hb. rewrite length_app, !one_digit_length by assumption. reflexivity.
Qed.

Lemma two_digits_value (a b : Z) : 0 <= a <= 9 -> 0 <= b <= 9 ->
  digits_value (Z_toString a ++ Z_toString b) = Some (10 * a + b).
Proof.
  intros Ha Hb.
  destruct (one_digit_cases a Ha) as [-> | [-> | [-> | [-> | [-> |
    [-> | [-> | [-> | [-> | ->]]]]]]]]];
  destruct (one_digit_cases b Hb) as [-> | [-> | [-> | [-> | [-> |
    [-> | [-> | [-> | [-> | ->]]]]]]]]]; reflexivity.
Qed.

(** What [hundredths_toString] prints denotes the number it was given. *)
Lemma hundredths_toString_decodes (n : Z) :
  0 <= n -> decimal_hundredths (hundredths_toString n) = Some n.
Proof.
  intros Hn. unfold hundredths_toString, decimal_hundredths.
  pose proof (Z.div_mod n 100 ltac:(lia)) as Hdm.
  pose proof (Z.mod_pos_bound n 100 ltac:(lia)) as Hr.
  assert (Hq : 0 <= n / 100) by (apply Z.div_pos; lia).
  set (q := n / 100) in *. set (r := n mod 100) in *.
  pose proof (digits_without_point _ (Z_toString_nonneg_digits q Hq)) as Hnp.
  cbv zeta. destruct (r =? 0) eqn:Hr0.
  - apply Z.eqb_eq in Hr0. rewrite split_at_point_whole by exact Hnp.
    rewrite digits_value_Z_toString by exact Hq. f_equal. lia.
  - apply Z.eqb_neq in Hr0.
    pose proof (Z.div_mod r 10 ltac:(lia)) as Hdm'.
    pose proof (Z.mod_pos_bound r 10 ltac:(lia)) as Hr'.
    assert (Ht : 0 <= r / 10 <= 9).
    { split; [apply Z.div_pos; lia |]. apply Z.lt_succ_r, Z.div_lt_upper_bound; lia. }
    change (js ".") with [46%N].
    destruct (r mod 10 =? 0) eqn:Hu0.
    + apply Z.eqb_eq in Hu0.
      change (Z_toString q ++ [46%N] ++ Z_toString (r / 10))
        with (Z_toString q ++ 46%N :: Z_toString (r / 10)).
      rewrite split_at_point_fraction by exact Hnp.
      rewrite digits_value_Z_toString by exact Hq.
      rewrite digits_value_Z_toString by lia.
      rewrite one_digit_length by exact Ht. f_equal. lia.
    + change (Z_toString q ++ [46%N] ++ Z_toString (r / 10) ++ Z_toString (r mod 10))
        with (Z_toString q ++ 46%N :: (Z_toString (r / 10) ++ Z_toString (r mod 10))).
      rewrite split_at_point_fraction by exact Hnp.
      rewrite digits_value_Z_toString by exact Hq.
      rewrite two_digits_value, two_digits_length by lia. f_equal. lia.
Qed.

(* ===================================================================== *)
(** * [formatFileSize] *)
(* ===================================================================== *)

Lemma floor_log_fuel_spec (k : Z) : 2 <= k ->
  forall (fuel : nat) (bytes : Z),
    1 <= bytes -> bytes < 2 ^ Z.of_nat fuel ->
    0 <= floor_log_fuel fuel k bytes /\
    k ^ floor_log_fuel fuel k bytes <= bytes < k ^ (floor_log_fuel fuel k bytes + 1).
Proof.
  intros Hk. induction fuel as [|fuel IH]; intros bytes Hb Hfuel.
  - simpl in Hfuel. lia.
  - simpl. destruct (bytes <? k) eqn:Hlt.
    + apply Z.ltb_lt in Hlt. rewrite Z.pow_0_r, Z.pow_1_r. lia.
    + apply Z.ltb_ge in Hlt.
      assert (Hq1 : 1 <= bytes / k)
        by (apply Z.div_le_lower_bound; lia).
      assert (Hq2 : bytes / k < 2 ^ Z.of_nat fuel).
      { rewrite Nat2Z.inj_succ, Z.pow_succ_r in Hfuel by lia.
        apply Z.div_lt_upper_bound; [lia |].
        assert (0 <= 2 ^ Z.of_nat fuel) by (apply Z.pow_nonneg; lia). nia. }
      destruct (IH (bytes / k) Hq1 Hq2) as (Hi & Hlo & Hhi).
      set (i := floor_log_fuel fuel k (bytes / k)) in *.
      split; [lia |].
      replace (1 + i + 1) with (Z.succ (i + 1)) by lia.
      replace (1 + i) with (Z.succ i) by lia.
      rewrite !Z.pow_succ_r by lia.
      pose proof (Z.mul_div_le bytes k ltac:(lia)) as Hdown.
      pose proof (Z.mul_succ_div_gt bytes k ltac:(lia)) as Hup.
      split; nia.
Qed.

(** The index is the integer logarithm: [k^i <= bytes < k^(i+1)]. *)
Lemma floor_log_spec (k bytes : Z) : 2 <= k -> 1 <= bytes ->
  0 <= floor_log k bytes /\
  k ^ floor_log k bytes <= bytes < k ^ (floor_log k bytes + 1).
Proof.
  intros Hk Hb. unfold floor_log. apply floor_log_fuel_spec; [exact Hk | exact Hb |].
  rewrite Nat2Z.inj_succ, Z2Nat.id by apply Z.log2_nonneg.
  apply Z.log2_spec. lia.
Qed.

Lemma unit_index_lt (bytes n : Z) : 1 <= bytes -> 0 <= n ->
  unit_index bytes < n <-> bytes < 1024 ^ n.
Proof.
  intros Hb Hn. unfold unit_index.
  destruct (floor_log_spec 1024 bytes ltac:(lia) Hb) as (Hi & Hlo & Hhi).
  set (i := floor_log 1024 bytes) in *. split; intros H.
  - eapply Z.lt_le_trans; [exact Hhi |].
    apply Z.pow_le_mono_r; lia.
  - destruct (Z.lt_ge_cases i n) as [Hlt | Hge]; [exact Hlt |].
    exfalso. assert (1024 ^ n <= 1024 ^ i) by (apply Z.pow_le_mono_r; lia). lia.
Qed.

Lemma sizes_at_Some (i : Z) : is_Some (sizes_at i) <-> 0 <= i < 4.
Proof.
  unfold sizes_at. destruct (i <? 0) eqn:Hneg.
  - apply Z.ltb_lt in Hneg. split; [intros [u Hu]; discriminate | lia].
  - apply Z.ltb_ge in Hneg. rewrite lookup_lt_is_Some. simpl. lia.
Qed.

Lemma sizes_at_elem (i : Z) (unit : jsstring) : sizes_at i = Some unit -> unit ∈ sizes.
Proof.
  unfold sizes_at. destruct (i <? 0); [discriminate |]. apply list_elem_of_lookup_2.
Qed.

Lemma hundredths_bounds (bytes d : Z) :
  0 < d -> d <= bytes < 1024 * d -> 100 <= hundredths bytes d <= 102400.
Proof.
  intros Hd Hb. unfold hundredths. split.
  - apply Z.div_le_lower_bound; lia.
  - apply Z.lt_succ_r. apply Z.div_lt_upper_bound; lia.
Qed.

(** C10.  [formatFileSize(0)] is ['0 Bytes'].  For [1 <= bytes < 1024^4] the
    result is a number, a blank and one of the four units, the one at the
    index [floor(log(bytes)/log(1024))]: the number is printed as a decimal
    numeral that denotes [bytes / 1024^i] rounded to hundredths, a positive
    number between 1 and 1024.  For [bytes >= 1] that index, with the
    logarithm taken exactly as the claim writes it, lies inside the [sizes]
    array exactly when [bytes < 1024^4]. *)
Theorem formatFileSize_units :
  formatFileSize 0 = js "0 Bytes" /\
  (forall bytes, 1 <= bytes < 1024 ^ 4 ->
     exists i unit number n,
       unit_index bytes = i /\ 0 <= i < 4 /\
       1024 ^ i <= bytes < 1024 ^ (i + 1) /\
       sizes_at i = Some unit /\ unit ∈ sizes /\
       n = hundredths bytes (1024 ^ i) /\
       100 <= n <= 102400 /\
       number = hundredths_toString n /\
       decimal_hundredths number = Some n /\
       formatFileSize bytes = number ++ js " " ++ unit) /\
  (forall bytes, 1 <= bytes ->
     (is_Some (sizes_at (unit_index bytes)) <-> bytes < 1024 ^ 4)).
Proof.
  split; [reflexivity |]. split.
  - intros bytes [Hb Hlt].
    destruct (floor_log_spec 1024 bytes ltac:(lia) Hb) as (Hi & Hlo & Hhi).
    assert (Hi4 : unit_index bytes < 4) by (apply unit_index_lt; lia).
    unfold unit_index in *.
    set (i := floor_log 1024 bytes) in *.
    destruct (proj2 (sizes_at_Some i) (conj Hi Hi4)) as [unit Hunit].
    assert (Hn : 100 <= hundredths bytes (1024 ^ i) <= 102400).
    { apply hundredths_bounds; [apply Z.pow_pos_nonneg; lia |].
      replace (i + 1) with (Z.succ i) in Hhi by lia.
      rewrite Z.pow_succ_r in Hhi by lia. lia. }
    exists i, unit, (hundredths_toString (hundredths bytes (1024 ^ i))),
      (hundredths bytes (1024 ^ i)).
    split; [reflexivity |]. split; [lia |]. split; [lia |].
    split; [exact Hunit |]. split; [eapply sizes_at_elem, Hunit |].
    split; [reflexivity |]. split; [exact Hn |]. split; [reflexivity |].
    split; [apply hundredths_toString_decodes; lia |].
    unfold formatFileSize.
    destruct (bytes =? 0) eqn:H0; [apply Z.eqb_eq in H0; lia |].
    destruct (bytes <? 0) eqn:Hneg; [apply Z.ltb_lt in Hneg; lia |].
    fold i. unfold unit_index. fold i. rewrite Hunit. reflexivity.
  - intros bytes Hb.
    rewrite sizes_at_Some. rewrite <- (unit_index_lt bytes 4) by lia.
    pose proof (floor_log_spec 1024 bytes ltac:(lia) Hb) as (Hi & _).
    unfold unit_index. lia.
Qed.

(* ===================================================================== *)
(** * Deleting a chat *)
(* ===================================================================== *)


Lemma delete_not_owned store chat_id caller :
  not_owned store chat_id caller ->
  Backend.delete chat_id caller store = (Some Backend.NotFoundError, store).
Proof.
  unfold Backend.delete. intros [Hnone | (session & Hsome & Hother)].
  - rewrite Hnone. reflexivity.
  - rewrite Hsome, bool_decide_eq_false_2 by exact Hother. reflexivity.
Qed.

(** C5.  Deleting a chat the caller does not own fails with [NotFoundError],
    the same result whether the chat is absent or belongs to another user,
    and the store is left as it was, so the chat and its history are intact.
    In the client the failed request makes [deleteChat] return [false] with
    the chat list untouched, and the sidebar selects nothing else. *)
Theorem delete_of_foreign_chat_fails
    (store : gmap (list N) Backend.ChatSession) (chat_id caller : jsstring)
    (currentChatId : option jsstring) (h : UseChat) :
  not_owned store chat_id caller ->
  Backend.delete chat_id caller store = (Some Backend.NotFoundError, store) /\
  (forall anyone,
     Backend.history chat_id anyone (Backend.delete chat_id caller store).2 =
     Backend.history chat_id anyone store) /\
  let resp := (Backend.delete_request chat_id caller store).1 in
  resp = Rejected /\
  (deleteChat chat_id resp h).1.1 = false /\
  (deleteChat chat_id resp h).1.2 = h /\
  chats (handleDeleteChat chat_id resp currentChatId h).1.1 = chats h /\
  (handleDeleteChat chat_id resp currentChatId h).2 = None.
Proof.
  intros Hno. pose proof (delete_not_owned _ _ _ Hno) as Hdel.
  split; [exact Hdel |]. split.
  - intros anyone. rewrite Hdel. reflexivity.
  - unfold Backend.delete_request. rewrite Hdel. simpl. repeat split.
Qed.

(* ===================================================================== *)
(** * A new chat and the turns that follow *)
(* ===================================================================== *)

Lemma chat_posts_app effs1 effs2 :
  chat_posts (effs1 ++ effs2) = chat_posts effs1 ++ chat_posts effs2.
Proof. apply omap_app. Qed.

Lemma chat_posts_cons_post message chat_id include effs :
  chat_posts (Http (POST_chat message chat_id include) :: effs) =
    (message, chat_id) :: chat_posts effs.
Proof. reflexivity. Qed.

Lemma fetchChats_chat_posts listing h : chat_posts (fetchChats listing h).2 = [].
Proof. destruct listing; reflexivity. Qed.

(** The chat requests of one [handleSend], whatever the network answers. *)
Lemma handleSend_chat_posts clk net chatId h st :
  chat_posts (handleSend clk net chatId h st).1.2 =
    if send_disabled st then [] else [(trim (input st), chatId)].
Proof.
  destruct (send_disabled st) eqn:Hen.
  - rewrite handleSend_disabled by exact Hen. reflexivity.
  - destruct (post_chat net) as [response|] eqn:Hpost.
    + rewrite (handleSend_fulfilled _ _ _ _ _ response Hen Hpost).
      cbn [fst snd].
      rewrite chat_posts_cons_post, chat_posts_app, fetchChats_chat_posts. reflexivity.
    + rewrite (handleSend_rejected _ _ _ _ _ Hen Hpost). reflexivity.
Qed.

Lemma send_disabled_setInput value st :
  isLoading st = false ->
  send_disabled (setInput value st) = negb (truthy (trim value)).
Proof. intros H. unfold send_disabled. simpl. rewrite H. apply orb_false_r. Qed.

(** The chat requests of the client in a turn. *)
Lemma client_turn_chat_posts t s :
  chat_posts (client_turn t s).1.2 =
    if send_disabled (setInput (typed t) (panel s)) then []
    else [(trim (typed t), currentChatId (page s))].
Proof. unfold client_turn. apply handleSend_chat_posts. Qed.

(** In a turn that is sent the client receives the back end's answer to the
    request it made, and the store is the one the back end left. *)
Lemma delivered_sent t s :
  send_disabled (setInput (typed t) (panel s)) = false ->
  delivered t s ->
  answer t =
    (Backend.chat (backend_turn t) (owner s) (trim (typed t))
       (currentChatId (page s)) (store s)).1.
Proof.
  intros Hen Hdel. unfold delivered in Hdel.
  rewrite client_turn_chat_posts, Hen in Hdel. simpl in Hdel.
  injection Hdel as Hdel. symmetry. exact Hdel.
Qed.

Lemma chat_turn_store_sent t s :
  send_disabled (setInput (typed t) (panel s)) = false ->
  store (chat_turn t s).1 =
    (Backend.chat (backend_turn t) (owner s) (trim (typed t))
       (currentChatId (page s)) (store s)).2.
Proof.
  intros Hen. unfold chat_turn. cbv zeta.
  rewrite client_turn_chat_posts, Hen.
  destruct ((client_turn t s).2); reflexivity.
Qed.

Lemma chat_turn_disabled t s :
  send_disabled (setInput (typed t) (panel s)) = true ->
  chat_turn t s =
    ({| owner := owner s; store := store s; page := page s; page_hook := page_hook s;
        panel := setInput (typed t) (panel s); panel_hook := panel_hook s |}, []).
Proof.
  intros Hdis. unfold chat_turn. cbv zeta.
  rewrite client_turn_chat_posts, Hdis. unfold client_turn.
  rewrite handleSend_disabled by exact Hdis. reflexivity.
Qed.

(** The back end answering a first message. *)
Lemma chat_creates (bt : Backend.Turn) owner query store answer srcs :
  truthy query = true ->
  Backend.generated bt = Fulfilled (answer, srcs) ->
  Backend.chat bt owner query None store =
    (Fulfilled {| ChatResponse.response := answer;
                  ChatResponse.chat_id := Backend.new_id bt;
                  ChatResponse.sources := srcs;
                  ChatResponse.timestamp := Backend.now bt |},
     <[Backend.new_id bt :=
         {| Backend.owner_id := owner; Backend.title := take 50 query;
            Backend.created_at := Backend.now bt;
            Backend.last_message_at := Backend.now bt;
            Backend.message_count := 2;
            Backend.messages :=
              [ {| Backend.chat_id := Backend.new_id bt; Backend.role := Backend.user;
                   Backend.content := query; Backend.sources := [];
                   Backend.timestamp := Backend.now bt |};
                {| Backend.chat_id := Backend.new_id bt; Backend.role := Backend.assistant;
                   Backend.content := answer; Backend.sources := srcs;
                   Backend.timestamp := Backend.now bt |} ] |}]> store).
Proof. intros Hq Hgen. unfold Backend.chat. rewrite Hq, Hgen. reflexivity. Qed.

(** The back end answering a message for a session of the caller. *)
Lemma chat_appends (bt : Backend.Turn) owner query c store session :
  truthy query = true ->
  store !! c = Some session ->
  Backend.owner_id session = owner ->
  Backend.chat bt owner query (Some c) store =
    match Backend.generated bt with
    | Fulfilled (answer, srcs) =>
        (Fulfilled {| ChatResponse.response := answer;
                      ChatResponse.chat_id := c;
                      ChatResponse.sources := srcs;
                      ChatResponse.timestamp := Backend.now bt |},
         <[c :=
             {| Backend.owner_id := Backend.owner_id session;
                Backend.title := Backend.title session;
                Backend.created_at := Backend.created_at session;
                Backend.last_message_at := Backend.now bt;
                Backend.message_count := Backend.message_count session + 2;
                Backend.messages :=
                  Backend.messages session ++
                  [ {| Backend.chat_id := c; Backend.role := Backend.user;
                       Backend.content := query; Backend.sources := [];
                       Backend.timestamp := Backend.now bt |};
                    {| Backend.chat_id := c; Backend.role := Backend.assistant;
                       Backend.content := answer; Backend.sources := srcs;
                       Backend.timestamp := Backend.now bt |} ] |}]> store)
    | Rejected => (Rejected, store)
    end.
Proof.
  intros Hq Hsess Hown. unfold Backend.chat, Backend.append.
  rewrite Hq, Hsess, bool_decide_eq_true_2 by exact Hown.
  destruct (Backend.generated bt) as [[answer srcs]|]; reflexivity.
Qed.

(** One turn of a conversation that runs in chat [c]. *)
Lemma chat_turn_in_chat c n t s :
  in_chat c n s ->
  delivered t s ->
  in_chat c (n + (if turn_persisted t then 2 else 0)) (chat_turn t s).1 /\
  chat_posts (chat_turn t s).2 =
    (if turn_sent t then [(trim (typed t), Some c)] else []).
Proof.
  intros (Hcur & Hload & session & Hsess & Hown & Hcount & Hlen) Hdel.
  unfold turn_persisted, turn_sent.
  pose proof (send_disabled_setInput (typed t) _ Hload) as Hsd.
  destruct (truthy (trim (typed t))) eqn:Hq; simpl in Hsd.
  - (* the message is sent *)
    pose proof (delivered_sent t s Hsd Hdel) as Hans.
    pose proof (chat_turn_store_sent t s Hsd) as Hstore.
    rewrite Hcur in Hans, Hstore.
    rewrite (chat_appends _ _ _ _ _ session Hq Hsess Hown) in Hans, Hstore.
    unfold chat_turn in *. cbv zeta in *. unfold client_turn in *. rewrite Hcur in *.
    destruct (Backend.generated (backend_turn t)) as [[text srcs]|] eqn:Hgen;
      simpl in Hans, Hstore.
    + erewrite handleSend_fulfilled in * by (first [exact Hsd | exact Hans]).
      simpl in Hstore |- *.
      destruct (negb (truthy c)); simpl in Hstore |- *.
      * unfold onChatCreated.
        destruct (fetchChats (page_listing t) (page_hook s)) as [ph' eff'] eqn:Hpf.
        simpl in Hstore |- *. split.
        -- split; [reflexivity |]. split; [reflexivity |].
           eexists. split; [rewrite Hstore; apply lookup_insert_eq |]. simpl.
           split; [exact Hown |]. split; [lia |].
           rewrite length_app. simpl. lia.
        -- f_equal. rewrite !chat_posts_app, fetchChats_chat_posts.
           change eff' with (ph', eff').2. rewrite <- Hpf, fetchChats_chat_posts.
           reflexivity.
      * split.
        -- split; [exact Hcur |]. split; [reflexivity |].
           eexists. split; [rewrite Hstore; apply lookup_insert_eq |]. simpl.
           split; [exact Hown |]. split; [lia |].
           rewrite length_app. simpl. lia.
        -- f_equal. rewrite chat_posts_app, fetchChats_chat_posts. reflexivity.
    + erewrite handleSend_rejected in * by (first [exact Hsd | exact Hans]).
      simpl in Hstore |- *. split.
      * split; [exact Hcur |]. split; [reflexivity |].
        exists session. rewrite Hstore.
        repeat split; [exact Hsess | exact Hown | lia | lia].
      * reflexivity.
  - (* nothing is sent *)
    rewrite (chat_turn_disabled t s Hsd). simpl. split; [| reflexivity].
    split; [exact Hcur |]. split; [exact Hload |].
    exists session. repeat split; [exact Hsess | exact Hown | lia | lia].
Qed.

(** All later turns of a conversation that runs in chat [c]. *)
Lemma chat_turns_in_chat c ts : forall n s,
  in_chat c n s ->
  delivered_all ts s ->
  in_chat c (n + 2 * persisted_turns ts) (chat_turns ts s).1 /\
  chat_posts (chat_turns ts s).2 =
    List.map (fun t => (trim (typed t), Some c)) (List.filter turn_sent ts).
Proof.
  unfold persisted_turns.
  induction ts as [|t ts IH]; intros n s Hin Hdel; simpl.
  - rewrite Z.add_0_r. split; [exact Hin | reflexivity].
  - destruct Hdel as [Hdel1 Hdel2].
    destruct (chat_turn_in_chat c n t s Hin Hdel1) as [Hin1 Hposts1].
    destruct (chat_turn t s) as [s1 eff1]. simpl in Hin1, Hposts1, Hdel2.
    destruct (IH _ s1 Hin1 Hdel2) as [Hin2 Hposts2].
    destruct (chat_turns ts s1) as [s2 eff2]. simpl in Hin2, Hposts2. simpl.
    split.
    + destruct (turn_persisted t); simpl length.
      * rewrite Nat2Z.inj_succ.
        replace (n + 2 * Z.succ (Z.of_nat (length (List.filter turn_persisted ts))))
          with (n + 2 + 2 * Z.of_nat (length (List.filter turn_persisted ts))) by lia.
        exact Hin2.
      * rewrite Z.add_0_r in Hin2. exact Hin2.
    + rewrite chat_posts_app, Hposts1, Hposts2.
      destruct (turn_sent t); reflexivity.
Qed.

(** Whatever is typed and whatever the back end does, there is an answer
    with which the network is honest. *)
Lemma delivery_exists typed clk bt listing1 listing2 (s : System) :
  exists a, delivered (mkTurnInput typed clk bt a listing1 listing2) s.
Proof.
  exists (Backend.chat bt (owner s) (trim typed) (currentChatId (page s)) (store s)).1.
  unfold delivered. rewrite client_turn_chat_posts. simpl.
  destruct (send_disabled (setInput typed (panel s))); reflexivity.
Qed.

(** C2.  A turn sent without a chat id creates a session and the conversation
    stays in it.  The network hands the client the back end's answers, and
    the store changes only through the requests the client issues.  The first
    turn issues exactly one chat request, without [chat_id]; the back end
    files the turn under a new session of the caller, next to the sessions
    that were there, and its answer, which is what the client receives,
    carries that session's id; the page adopts the id as [currentChatId].  In
    all turns that follow the page keeps the id, the chat requests issued are
    exactly one for each turn with a text to send, each naming that id, and
    the session grows by two messages for each turn the back end persists. *)
Theorem new_chat_id_is_adopted
    (t : TurnInput) (s : System) (text : jsstring) (srcs : list Source.t) :
  currentChatId (page s) = None ->
  send_disabled (setInput (typed t) (panel s)) = false ->
  Backend.generated (backend_turn t) = Fulfilled (text, srcs) ->
  store s !! Backend.new_id (backend_turn t) = None ->
  delivered t s ->
  let c := Backend.new_id (backend_turn t) in
  let s1 := (chat_turn t s).1 in
  chat_posts (chat_turn t s).2 = [(trim (typed t), None)] /\
  (exists response,
     answer t = Fulfilled response /\
     Backend.chat (backend_turn t) (owner s) (trim (typed t)) None (store s) =
       (Fulfilled response, store s1) /\
     ChatResponse.chat_id response = c) /\
  (exists session,
     store s1 !! c = Some session /\
     Backend.owner_id session = owner s /\
     Backend.title session = take 50 (trim (typed t)) /\
     Backend.message_count session = 2 /\
     List.map Backend.role (Backend.messages session) = [Backend.user; Backend.assistant]) /\
  (forall c' session',
     store s !! c' = Some session' -> store s1 !! c' = Some session') /\
  currentChatId (page s1) = Some c /\
  forall ts : list TurnInput,
    delivered_all ts s1 ->
    let s2 := (chat_turns ts s1).1 in
    currentChatId (page s2) = Some c /\
    chat_posts (chat_turns ts s1).2 =
      List.map (fun t' => (trim (typed t'), Some c)) (List.filter turn_sent ts) /\
    exists session,
      store s2 !! c = Some session /\
      Backend.owner_id session = owner s2 /\
      Backend.message_count session = 2 + 2 * persisted_turns ts /\
      Z.of_nat (length (Backend.messages session)) = 2 + 2 * persisted_turns ts.
Proof.
  intros Hnew Hen Hgen Hfresh Hdel c s1. subst s1.
  assert (Hq : truthy (trim (typed t)) = true).
  { unfold send_disabled in Hen. simpl in Hen.
    apply orb_false_iff in Hen as [Hen _]. apply negb_false_iff, Hen. }
  pose proof (delivered_sent t s Hen Hdel) as Hans.
  pose proof (chat_turn_store_sent t s Hen) as Hstore.
  rewrite Hnew in Hans, Hstore.
  pose proof (chat_creates (backend_turn t) (owner s) _ (store s) text srcs Hq Hgen) as Hchat.
  rewrite Hchat in Hans, Hstore. simpl in Hans, Hstore. fold c in Hans, Hstore, Hchat.
  assert (Hpage : page (chat_turn t s).1 = setCurrentChatId (Some c) (page s) /\
                  isLoading (panel (chat_turn t s).1) = false /\
                  owner (chat_turn t s).1 = owner s /\
                  chat_posts (chat_turn t s).2 = [(trim (typed t), None)]).
  { unfold chat_turn in *. cbv zeta in *. unfold client_turn in *.
    rewrite Hnew in *.
    erewrite handleSend_fulfilled by (first [exact Hen | exact Hans]).
    simpl. unfold onChatCreated.
    destruct (fetchChats (page_listing t) (page_hook s)) as [ph' eff'] eqn:Hpf.
    simpl. repeat split.
    f_equal. rewrite !chat_posts_app, fetchChats_chat_posts.
    change eff' with (ph', eff').2. rewrite <- Hpf, fetchChats_chat_posts. reflexivity. }
  destruct Hpage as (Hpage & Hload1 & Hown1 & Hposts).
  split; [exact Hposts |].
  split.
  { eexists. split; [exact Hans |]. split; [| reflexivity].
    rewrite Hchat, Hstore. reflexivity. }
  split.
  { eexists. rewrite Hstore. split; [apply lookup_insert_eq |]. repeat split. }
  split.
  { intros c' session' Hold. rewrite Hstore.
    rewrite lookup_insert_ne; [exact Hold |].
    intros <-. unfold c in Hold. rewrite Hfresh in Hold. discriminate. }
  split; [rewrite Hpage; reflexivity |].
  intros ts Hdel_all.
  destruct (chat_turns_in_chat c ts 2 (chat_turn t s).1) as
    [(Hcur & _ & session2 & Hs2 & Hown2 & Hc2 & Hl2) Hposts2].
  { split; [rewrite Hpage; reflexivity |]. split; [exact Hload1 |].
    eexists. rewrite Hstore. split; [apply lookup_insert_eq |]. simpl.
    split; [symmetry; exact Hown1 |]. split; reflexivity. }
  { exact Hdel_all. }
  split; [exact Hcur |]. split; [exact Hposts2 |].
  exists session2. repeat split; assumption.
Qed.

(* ===================================================================== *)
(** * The theorems at work on sample data *)
(* ===================================================================== *)


Lemma turn_commits_pair_or_nothing_witness :
  send_disabled sample_panel = false /\
  messages (handleSend sample_clock sample_network None useChat_initial sample_panel).1.1.1 =
    [newUserMessage sample_clock (js "What is the refund policy?") sample_response;
     newAiMessage sample_clock sample_response].
Proof.
  split; [reflexivity |].
  exact (proj1 (proj1 (proj2
    (turn_commits_pair_or_nothing sample_clock sample_network None useChat_initial
       sample_panel eq_refl)))).
Defined.

Lemma blank_query_rejected_witness :
  blank (input blank_panel) /\
  handleSend sample_clock sample_network None useChat_initial blank_panel =
    (blank_panel, useChat_initial, [], None).
Proof.
  assert (Hblank : blank (input blank_panel)) by (repeat constructor).
  split; [exact Hblank |].
  exact (proj1 (proj2
    (blank_query_rejected sample_clock sample_network None useChat_initial
       blank_panel Hblank))).
Defined.


Lemma user_messages_carry_no_sources_witness :
  Forall history_well_formed sample_events /\
  length (messages (panel_run sample_events (ChatInterface_initial, useChat_initial)).1) = 4%nat /\
  Forall user_without_sources
    (messages (panel_run sample_events (ChatInterface_initial, useChat_initial)).1).
Proof.
  assert (Hwf : Forall history_well_formed sample_events).
  { repeat constructor. intros Hty. vm_compute in Hty. discriminate. }
  split; [exact Hwf |]. split; [reflexivity |].
  exact (proj1 (proj2 user_messages_carry_no_sources) sample_events Hwf).
Defined.

Lemma unit_scores_render_as_percentages_witness :
  Forall (fun v => 0 <= badge_percent v <= 100)
    [ {| badge_percent := 90; page_label := Some (inject_Z 2);
         source_text := js "Refunds are processed within 14 days" |} ].
Proof.
  refine (proj2 (unit_scores_render_as_percentages
                   (newAiMessage sample_clock sample_response) 1 _ _ eq_refl)).
  repeat constructor; simpl; intros H; discriminate.
Defined.


Lemma only_pdf_files_are_uploaded_witness :
  File.type text_file <> js "application/pdf" /\
  onDrop [text_file] (mkDocumentUpload (Some pdf_file) false) =
    (mkDocumentUpload (Some pdf_file) false, [ToastError (js "Please select a PDF file")]).
Proof.
  assert (Hty : File.type text_file <> js "application/pdf").
  { intros H. vm_compute in H. discriminate. }
  split; [exact Hty |].
  exact (proj1 (proj1 only_pdf_files_are_uploaded text_file []
                  (mkDocumentUpload (Some pdf_file) false) Hty)).
Defined.


Lemma sidebar_lists_most_recent_first_witness :
  ChatSidebar sample_getTime [older_chat; newer_chat] false =
    ChatList [newer_chat; older_chat] /\
  exists t1 t2,
    sample_getTime (Chat.last_message_at newer_chat) = Some t1 /\
    sample_getTime (Chat.last_message_at older_chat) = Some t2 /\
    t2 <= t1.
Proof.
  split; [reflexivity |].
  refine (proj2 (sidebar_lists_most_recent_first sample_getTime
                   [older_chat; newer_chat] false [newer_chat; older_chat] _ eq_refl)
            0%nat newer_chat older_chat eq_refl eq_refl).
  repeat constructor; eexists; reflexivity.
Defined.

Lemma formatFileSize_units_witness :
  formatFileSize 1536 = js "1.5 KB" /\
  decimal_hundredths (js "1.5") = Some 150 /\
  is_Some (sizes_at (unit_index 1536)).
Proof.
  assert (H1 : 1 <= 1536 < 1024 ^ 4) by (split; [discriminate | reflexivity]).
  split; [| split].
  - destruct (proj1 (proj2 formatFileSize_units) 1536 H1)
      as (i & unit & number & n & Hi & _ & _ & Hunit & _ & Hn & _ & Hnumber & _ & Hfmt).
    subst i n number. vm_compute in Hunit. injection Hunit as <-. exact Hfmt.
  - reflexivity.
  - exact (proj2 (proj2 (proj2 formatFileSize_units) 1536 (proj1 H1)) (proj2 H1)).
Defined.


Lemma delete_of_foreign_chat_fails_witness :
  Backend.delete (js "c1") (js "bob") alice_store = (Some Backend.NotFoundError, alice_store) /\
  Backend.delete (js "c9") (js "bob") alice_store = (Some Backend.NotFoundError, alice_store).
Proof.
  split.
  - refine (proj1 (delete_of_foreign_chat_fails alice_store (js "c1") (js "bob")
                     None useChat_initial _)).
    right. exists alice_session. split; [reflexivity |].
    intros H. vm_compute in H. discriminate.
  - refine (proj1 (delete_of_foreign_chat_fails alice_store (js "c9") (js "bob")
                     None useChat_initial _)).
    left. reflexivity.
Defined.


Lemma new_chat_id_is_adopted_witness :
  delivered first_turn sample_system /\
  delivered_all [second_turn; blank_turn] (chat_turn first_turn sample_system).1 /\
  currentChatId (page (chat_turn first_turn sample_system).1) = Some (js "c1") /\
  chat_posts
    (chat_turns [second_turn; blank_turn] (chat_turn first_turn sample_system).1).2 =
    [(js "And for digital goods?", Some (js "c1"))].
Proof.
  assert (Hdel : delivered first_turn sample_system) by reflexivity.
  assert (Hall : delivered_all [second_turn; blank_turn]
                   (chat_turn first_turn sample_system).1)
    by (repeat split; reflexivity).
  pose proof (new_chat_id_is_adopted first_turn sample_system
                (js "Within 14 days.") [sample_source]
                eq_refl eq_refl eq_refl eq_refl Hdel) as H.
  split; [exact Hdel |]. split; [exact Hall |]. split.
  - exact (proj1 (proj2 (proj2 (proj2 (proj2 H))))).
  - exact (proj1 (proj2 (proj2 (proj2 (proj2 (proj2 (proj2 H)))) _ Hall))).
Defined.

(* ===================================================================== *)
(** * More about [trim] and [handleSend] *)
(* ===================================================================== *)

Lemma trimStart_split (s : jsstring) : exists l, blank l /\ s = l ++ trimStart s.
Proof.
  induction s as [|c s (l & Hl & Hs)]; simpl.
  - exists []. split; [constructor | reflexivity].
  - destruct (is_white_space c) eqn:Hc.
    + exists (c :: l). split; [constructor; assumption |].
      simpl. f_equal. exact Hs.
    + exists []. split; [constructor | reflexivity].
Qed.

Lemma trimStart_head (s : jsstring) c r :
  trimStart s = c :: r -> is_white_space c = false.
Proof.
  induction s as [|d s IH]; simpl; [discriminate |].
  destruct (is_white_space d) eqn:Hd; [exact IH |].
  intros [= <- _]. exact Hd.
Qed.

Lemma trimEnd_split (s : jsstring) : exists r, blank r /\ s = trimEnd s ++ r.
Proof.
  unfold trimEnd. destruct (trimStart_split (rev s)) as (l & Hl & Hs).
  exists (rev l). split; [apply blank_rev, Hl |].
  rewrite <- rev_app_distr, <- Hs, rev_involutive. reflexivity.
Qed.

Lemma last_rev_head {A} (l : list A) : last (rev l) = head l.
Proof. destruct l as [|x l]; simpl; [reflexivity | apply last_snoc]. Qed.

Lemma trimEnd_last (s : jsstring) c :
  last (trimEnd s) = Some c -> is_white_space c = false.
Proof.
  unfold trimEnd. rewrite last_rev_head. intros H.
  apply head_Some in H as [r Hr]. eapply trimStart_head, Hr.
Qed.

Lemma trim_split (s : jsstring) :
  exists l r, blank l /\ blank r /\ s = l ++ trim s ++ r.
Proof.
  unfold trim. destruct (trimStart_split s) as (l & Hl & Hs).
  destruct (trimEnd_split (trimStart s)) as (r & Hr & Ht).
  exists l, r. split; [exact Hl |]. split; [exact Hr |].
  rewrite <- Ht. exact Hs.
Qed.

Lemma trim_head (s : jsstring) c :
  head (trim s) = Some c -> is_white_space c = false.
Proof.
  unfold trim. intros H. apply head_Some in H as [m Hm].
  destruct (trimEnd_split (trimStart s)) as (r & _ & Ht).
  rewrite Hm in Ht. simpl in Ht. eapply trimStart_head, Ht.
Qed.

Lemma send_enabled_inv (st : ChatInterface) :
  send_disabled st = false -> trim (input st) <> [] /\ isLoading st = false.
Proof.
  unfold send_disabled. intros H. apply orb_false_iff in H as [Hq Hl].
  split; [| exact Hl]. apply negb_false_iff in Hq. intros Hnil.
  rewrite Hnil in Hq. discriminate.
Qed.

(** X1.  The text an enabled send posts is the input without the white space
    around it: the request comes first among the effects and carries
    [input.trim()], which is not empty, neither starts nor ends with a white
    space character, and differs from the input only by white space before
    and after it. *)
Theorem sent_message_is_trimmed
    (clk : Clock) (net : Network) (chatId : option jsstring)
    (h : UseChat) (st : ChatInterface) :
  send_disabled st = false ->
  exists m,
    head (handleSend clk net chatId h st).1.2 = Some (Http (POST_chat m chatId true)) /\
    m <> [] /\
    (exists l r, blank l /\ blank r /\ input st = l ++ m ++ r) /\
    (forall c, head m = Some c -> is_white_space c = false) /\
    (forall c, last m = Some c -> is_white_space c = false).
Proof.
  intros Hen. exists (trim (input st)). split; [| split; [| split; [| split]]].
  - destruct (post_chat net) as [response|] eqn:Hpost.
    + rewrite (handleSend_fulfilled _ _ _ _ _ response Hen Hpost). reflexivity.
    + rewrite (handleSend_rejected _ _ _ _ _ Hen Hpost). reflexivity.
  - apply send_enabled_inv, Hen.
  - apply trim_split.
  - apply trim_head.
  - intros c. unfold trim. apply trimEnd_last.
Qed.

(** X2.  While a turn is pending nothing more can be sent: in the state
    [handleSend] leaves behind when it starts a request, a further call does
    nothing, whatever the user has typed meanwhile and whatever chat is
    selected. *)
Theorem pending_turn_blocks_resend
    (st st1 : ChatInterface) (userMessage : jsstring) :
  handleSend_begin st = (st1, Some userMessage) ->
  forall typed clk net chatId h,
    send_disabled (setInput typed st1) = true /\
    handleSend clk net chatId h (setInput typed st1) = (setInput typed st1, h, [], None).
Proof.
  unfold handleSend_begin. destruct (send_disabled st); [discriminate |].
  intros [= <- _] typed clk net chatId h.
  assert (Hdis : send_disabled
            (setInput typed
               {| messages := messages st; input := []; isLoading := true;
                  loadingHistory := loadingHistory st |}) = true)
    by (apply send_disabled_iff; right; reflexivity).
  split; [exact Hdis | apply handleSend_disabled, Hdis].
Qed.

Lemma handleSend_isLoading clk net chatId h st :
  isLoading st = false -> isLoading (handleSend clk net chatId h st).1.1.1 = false.
Proof.
  intros Hl. destruct (send_disabled st) eqn:Hen.
  - rewrite handleSend_disabled by exact Hen. exact Hl.
  - destruct (post_chat net) as [response|] eqn:Hpost.
    + rewrite (handleSend_fulfilled _ _ _ _ _ response Hen Hpost). reflexivity.
    + rewrite (handleSend_rejected _ _ _ _ _ Hen Hpost). reflexivity.
Qed.

Lemma panel_run_isLoading evs : forall p,
  isLoading p.1 = false -> isLoading (panel_run evs p).1 = false.
Proof.
  induction evs as [|ev evs IH]; intros p Hl; simpl; [exact Hl |].
  apply IH. destruct ev as [value | clk net chatId | chatId history]; simpl.
  - exact Hl.
  - apply handleSend_isLoading, Hl.
  - unfold loadHistory_effect.
    destruct chatId as [c|]; [destruct (truthy c) |]; try exact Hl.
    destruct (getChatHistory c history). exact Hl.
Qed.

(** X3.  A send never leaves the panel stuck or half filled.  After an
    enabled [handleSend] the text area is empty and [isLoading] is false,
    whether the request succeeded or not, so a failed send does not give the
    typed text back.  After any sequence of typing, sending and history
    loads, [isLoading] is false, and the send button is disabled exactly when
    the input is blank. *)
Theorem send_always_settles :
  (forall clk net chatId h st,
     send_disabled st = false ->
     input (handleSend clk net chatId h st).1.1.1 = [] /\
     isLoading (handleSend clk net chatId h st).1.1.1 = false /\
     loadingHistory (handleSend clk net chatId h st).1.1.1 = loadingHistory st) /\
  (forall evs,
     let st := (panel_run evs (ChatInterface_initial, useChat_initial)).1 in
     isLoading st = false /\
     (send_disabled st = true <-> blank (input st))).
Proof.
  split.
  - intros clk net chatId h st Hen.
    destruct (post_chat net) as [response|] eqn:Hpost.
    + rewrite (handleSend_fulfilled _ _ _ _ _ response Hen Hpost). repeat split.
    + rewrite (handleSend_rejected _ _ _ _ _ Hen Hpost). repeat split.
  - intros evs st.
    assert (Hl : isLoading st = false) by (apply panel_run_isLoading; reflexivity).
    split; [exact Hl |]. rewrite send_disabled_iff, Hl. split.
    + intros [Hb | Hf]; [exact Hb | discriminate].
    + intros Hb. left. exact Hb.
Qed.

(** X4.  The requests of one [handleSend]: none when the send is disabled;
    otherwise the chat request, followed by one request for the list of chats
    only if the chat request succeeded.  When the chat request fails the hook
    state is untouched and [onChatCreated] is not called. *)
Theorem handleSend_requests
    (clk : Clock) (net : Network) (chatId : option jsstring)
    (h : UseChat) (st : ChatInterface) :
  List.filter is_request (handleSend clk net chatId h st).1.2 =
    (if send_disabled st then []
     else match post_chat net with
          | Fulfilled _ => [Http (POST_chat (trim (input st)) chatId true); Http GET_chats]
          | Rejected => [Http (POST_chat (trim (input st)) chatId true)]
          end) /\
  (post_chat net = Rejected ->
     (handleSend clk net chatId h st).1.1.2 = h /\
     (handleSend clk net chatId h st).2 = None).
Proof.
  destruct (send_disabled st) eqn:Hen.
  - rewrite handleSend_disabled by exact Hen. split; [reflexivity |].
    intros _. split; reflexivity.
  - destruct (post_chat net) as [response|] eqn:Hpost.
    + rewrite (handleSend_fulfilled _ _ _ _ _ response Hen Hpost).
      split; [| discriminate].
      destruct (get_chats net); reflexivity.
    + rewrite (handleSend_rejected _ _ _ _ _ Hen Hpost).
      split; [reflexivity |]. intros _. split; reflexivity.
Qed.

(* ===================================================================== *)
(** * Deleting from the sidebar *)
(* ===================================================================== *)

Lemma other_chat_true chatId chat :
  other_chat chatId chat = true <-> Chat.chat_id chat <> chatId.
Proof.
  unfold other_chat, str_eqb. rewrite negb_true_iff. apply bool_decide_eq_false.
Qed.

Lemma deleteChat_fulfilled chatId h :
  deleteChat chatId (Fulfilled tt) h =
    (true,
     {| chats := List.filter (other_chat chatId) (chats h);
        loading := loading h; error := error h |},
     [Http (DELETE_chat chatId); ToastSuccess (js "Chat deleted successfully")]).
Proof. reflexivity. Qed.

Lemma filter_bool_sublist {A} (f : A -> bool) (l : list A) :
  List.filter f l `sublist_of` l.
Proof.
  induction l as [|x l IH]; simpl; [constructor |].
  destruct (f x); [apply sublist_skip | apply sublist_cons]; exact IH.
Qed.

Lemma filter_bool_all {A} (f : A -> bool) (l : list A) :
  Forall (fun x => f x = true) l -> List.filter f l = l.
Proof.
  induction 1 as [|x l Hx _ IH]; simpl; [reflexivity |].
  rewrite Hx, IH. reflexivity.
Qed.

Lemma filter_bool_Forall {A} (f : A -> bool) (l : list A) :
  Forall (fun x => f x = true) (List.filter f l).
Proof.
  induction l as [|x l IH]; simpl; [constructor |].
  destruct (f x) eqn:Hx; [constructor; assumption | exact IH].
Qed.

(** X5.  A successful [deleteChat] takes out of the hook's list exactly the
    chats with that id: a chat is listed afterwards if and only if it was
    listed and has another id, the remaining chats keep their order, a list
    without that id is left as it is, deleting once more changes nothing, and
    [loading] and [error] are kept. *)
Theorem deleteChat_removes_exactly (chatId : jsstring) (h : UseChat) :
  let h' := (deleteChat chatId (Fulfilled tt) h).1.2 in
  (forall chat, In chat (chats h') <-> In chat (chats h) /\ Chat.chat_id chat <> chatId) /\
  chats h' `sublist_of` chats h /\
  (Forall (fun chat => Chat.chat_id chat <> chatId) (chats h) -> h' = h) /\
  (deleteChat chatId (Fulfilled tt) h').1.2 = h' /\
  loading h' = loading h /\ error h' = error h.
Proof.
  rewrite deleteChat_fulfilled. simpl. split; [| split; [| split; [| split]]].
  - intros chat. rewrite filter_In, other_chat_true. reflexivity.
  - apply filter_bool_sublist.
  - intros Hall. destruct h as [cs l e]. simpl in *. f_equal.
    apply filter_bool_all. eapply Forall_impl; [exact Hall |].
    intros chat Hne. apply other_chat_true, Hne.
  - f_equal. apply filter_bool_all, filter_bool_Forall.
  - split; reflexivity.
Qed.

Lemma click_delete_current chatId t :
  currentChatId (tree_page t) = Some chatId ->
  (click_delete chatId (Fulfilled tt) t).1 =
    {| tree_page := handleSelectChat [] (tree_page t);
       tree_page_hook := tree_page_hook t;
       tree_sidebar_hook := (deleteChat chatId (Fulfilled tt) (tree_sidebar_hook t)).1.2 |}.
Proof.
  intros Hcur. unfold click_delete, handleDeleteChat.
  rewrite deleteChat_fulfilled, Hcur. simpl.
  rewrite bool_decide_eq_true_2 by reflexivity. reflexivity.
Qed.

(** X6.  Deleting the chat that is open leaves the page on the empty string
    as chat id, not on [null].  The title reads "New Chat", the panel clears
    its messages without asking for a history, and the next message is
    posted with [chat_id] the empty string; when that request is answered the
    panel reports the answer's chat id through [onChatCreated].  A delete
    that fails, or that removes another chat, does not change the open
    chat. *)
Theorem deleting_open_chat_selects_empty_id (chatId : jsstring) (t : DashboardTree) :
  currentChatId (tree_page t) = Some chatId ->
  let page' := tree_page (click_delete chatId (Fulfilled tt) t).1 in
  currentChatId page' = Some [] /\
  header_title page' = js "New Chat" /\
  (forall history st,
     messages (loadHistory_effect (currentChatId page') history st).1 = [] /\
     (loadHistory_effect (currentChatId page') history st).2 = []) /\
  (forall clk net h st response,
     send_disabled st = false -> post_chat net = Fulfilled response ->
     head (handleSend clk net (currentChatId page') h st).1.2 =
       Some (Http (POST_chat (trim (input st)) (Some []) true)) /\
     (handleSend clk net (currentChatId page') h st).2 =
       Some (ChatResponse.chat_id response)) /\
  (forall other resp,
     resp = Rejected \/ other <> chatId ->
     tree_page (click_delete other resp t).1 = tree_page t).
Proof.
  intros Hcur page'. subst page'. rewrite (click_delete_current _ _ Hcur). simpl.
  split; [reflexivity |]. split; [reflexivity |]. split; [| split].
  - intros history st. split; reflexivity.
  - intros clk net h st response Hen Hpost.
    rewrite (handleSend_fulfilled _ _ _ _ _ response Hen Hpost). split; reflexivity.
  - intros other resp Hcase. unfold click_delete, handleDeleteChat.
    destruct resp as [[]|].
    + rewrite deleteChat_fulfilled, Hcur.
      destruct Hcase as [Hrej | Hne]; [discriminate |].
      rewrite bool_decide_eq_false_2 by (intros [= Heq]; apply Hne; symmetry; exact Heq).
      reflexivity.
    + reflexivity.
Qed.

(** X7.  Deleting a chat does not take it off the screen.  The delete
    filters the [chats] of the sidebar's own [useChat()], while the cards are
    rendered from the [chats] of the page's [useChat()], which a delete never
    touches: after a successful delete of a chat that is shown, the sidebar
    shows the same cards, the deleted chat among them. *)
Theorem deleted_chat_stays_listed
    (getTime : jsstring -> option Z) (chatId : jsstring) (resp : Outcome unit)
    (t : DashboardTree) (cards : list Chat.t) (chat : Chat.t) :
  sidebar_view getTime t = ChatList cards ->
  In chat (chats (tree_page_hook t)) ->
  Chat.chat_id chat = chatId ->
  sidebar_view getTime (click_delete chatId resp t).1 = ChatList cards /\
  In chat cards /\
  (resp = Fulfilled tt ->
     ~ In chat (chats (tree_sidebar_hook (click_delete chatId resp t).1))).
Proof.
  intros Hview Hin Hid.
  assert (Hsame : tree_page_hook (click_delete chatId resp t).1 = tree_page_hook t).
  { unfold click_delete.
    destruct (handleDeleteChat chatId resp (currentChatId (tree_page t))
                (tree_sidebar_hook t)) as [[hs' eff] selected]. reflexivity. }
  split; [| split].
  - unfold sidebar_view. rewrite Hsame. exact Hview.
  - unfold sidebar_view, ChatSidebar in Hview.
    destruct (loading (tree_page_hook t)); [discriminate |].
    destruct (Z.of_nat (length (chats (tree_page_hook t))) =? 0); [discriminate |].
    injection Hview as <-. unfold sortedChats.
    apply list_elem_of_In. rewrite Array_sort_perm. apply list_elem_of_In, Hin.
  - intros ->. unfold click_delete, handleDeleteChat.
    rewrite deleteChat_fulfilled. simpl.
    rewrite filter_In, other_chat_true. intros [_ Hne]. exact (Hne Hid).
Qed.

(* ===================================================================== *)
(** * [formatDate] *)
(* ===================================================================== *)

(** X8.  [formatDate] counts whole periods of 24 hours between the date and
    now, in either direction, not calendar days: a date less than 24 hours
    away, in the past or in the future, reads "Today", one to two periods
    away "Yesterday", two to six periods away "n days ago", and from seven
    periods on, as for a string that is not a date, the locale's date string
    is shown. *)
Theorem formatDate_counts_whole_days
    (getTime : jsstring -> option Z) (toLocaleDateString : jsstring -> jsstring)
    (now : Z) (dateString : jsstring) :
  (forall date, getTime dateString = Some date ->
     let distance := Z.abs (now - date) in
     (distance < 86400000 ->
        formatDate getTime toLocaleDateString now dateString = js "Today") /\
     (86400000 <= distance < 2 * 86400000 ->
        formatDate getTime toLocaleDateString now dateString = js "Yesterday") /\
     (forall n, 2 <= n < 7 ->
        n * 86400000 <= distance < (n + 1) * 86400000 ->
        formatDate getTime toLocaleDateString now dateString =
          Z_toString n ++ js " days ago") /\
     (7 * 86400000 <= distance ->
        formatDate getTime toLocaleDateString now dateString =
          toLocaleDateString dateString)) /\
  (getTime dateString = None ->
     formatDate getTime toLocaleDateString now dateString =
       toLocaleDateString dateString).
Proof.
  split.
  - intros date Hdate distance. unfold formatDate, diffDays. rewrite Hdate.
    change (1000 * 60 * 60 * 24) with 86400000. fold distance.
    assert (Hpos : 0 <= distance) by apply Z.abs_nonneg.
    split; [| split; [| split]].
    + intros H. rewrite Z.div_small by lia. reflexivity.
    + intros H.
      replace (distance / 86400000) with 1
        by (apply (Z.div_unique distance 86400000 1 (distance - 86400000)); lia).
      reflexivity.
    + intros n Hn H.
      replace (distance / 86400000) with n
        by (apply (Z.div_unique distance 86400000 n (distance - n * 86400000)); lia).
      destruct (n =? 0) eqn:H0; [apply Z.eqb_eq in H0; lia |].
      destruct (n =? 1) eqn:H1; [apply Z.eqb_eq in H1; lia |].
      destruct (n <? 7) eqn:H7; [reflexivity | apply Z.ltb_ge in H7; lia].
    + intros H.
      assert (Hq : 7 <= distance / 86400000) by (apply Z.div_le_lower_bound; lia).
      destruct (distance / 86400000 =? 0) eqn:H0; [apply Z.eqb_eq in H0; lia |].
      destruct (distance / 86400000 =? 1) eqn:H1; [apply Z.eqb_eq in H1; lia |].
      destruct (distance / 86400000 <? 7) eqn:H7; [apply Z.ltb_lt in H7; lia | reflexivity].
  - intros Hnone. unfold formatDate, diffDays. rewrite Hnone. reflexivity.
Qed.

(* ===================================================================== *)
(** * More about [formatFileSize] *)
(* ===================================================================== *)

Lemma unit_index_unique (bytes i : Z) :
  0 <= i -> 1024 ^ i <= bytes < 1024 ^ (i + 1) -> unit_index bytes = i.
Proof.
  intros Hi [Hlo Hhi].
  assert (Hb : 1 <= bytes).
  { assert (0 < 1024 ^ i) by (apply Z.pow_pos_nonneg; lia). lia. }
  unfold unit_index.
  destruct (floor_log_spec 1024 bytes ltac:(lia) Hb) as (Hj & Hjlo & Hjhi).
  set (j := floor_log 1024 bytes) in *.
  destruct (Z.lt_trichotomy j i) as [Hlt | [Heq | Hgt]]; [| exact Heq |].
  - exfalso. assert (1024 ^ (j + 1) <= 1024 ^ i) by (apply Z.pow_le_mono_r; lia). lia.
  - exfalso. assert (1024 ^ (i + 1) <= 1024 ^ j) by (apply Z.pow_le_mono_r; lia). lia.
Qed.

Lemma hundred_times_div_mod (k : Z) : 1 <= k -> (100 * k) / 100 = k /\ (100 * k) mod 100 = 0.
Proof.
  intros _. split.
  - rewrite Z.mul_comm. apply Z.div_mul. lia.
  - rewrite Z.mul_comm. apply Z.mod_mul. lia.
Qed.

(** X9.  A whole number of units is shown as it is: for [1 <= k < 1024] and
    a unit at index [i] of [sizes], [formatFileSize(k * 1024^i)] is [k], a
    blank and the unit, without decimals; in particular sizes below 1024 are
    shown as their number of bytes. *)
Theorem whole_units_shown_exactly (k i : Z) (unit : jsstring) :
  1 <= k < 1024 ->
  sizes_at i = Some unit ->
  formatFileSize (k * 1024 ^ i) = Z_toString k ++ js " " ++ unit.
Proof.
  intros Hk Hunit.
  assert (Hi : 0 <= i < 4) by (apply sizes_at_Some; eexists; exact Hunit).
  assert (Hd : 0 < 1024 ^ i) by (apply Z.pow_pos_nonneg; lia).
  assert (Hidx : unit_index (k * 1024 ^ i) = i).
  { apply unit_index_unique; [lia |].
    replace (i + 1) with (Z.succ i) by lia. rewrite Z.pow_succ_r by lia. nia. }
  unfold formatFileSize.
  destruct (k * 1024 ^ i =? 0) eqn:H0; [apply Z.eqb_eq in H0; nia |].
  destruct (k * 1024 ^ i <? 0) eqn:Hneg; [apply Z.ltb_lt in Hneg; nia |].
  cbv zeta. rewrite Hidx, Hunit.
  assert (Hh : hundredths (k * 1024 ^ i) (1024 ^ i) = 100 * k).
  { unfold hundredths.
    replace (200 * (k * 1024 ^ i) + 1024 ^ i) with ((200 * k + 1) * 1024 ^ i) by ring.
    rewrite (Z.mul_comm 2 (1024 ^ i)), (Z.mul_comm (200 * k + 1)).
    rewrite Z.div_mul_cancel_l by lia.
    symmetry. apply (Z.div_unique (200 * k + 1) 2 (100 * k) 1); lia. }
  rewrite Hh. unfold hundredths_toString.
  destruct (hundred_times_div_mod k ltac:(lia)) as [Hq Hr]. rewrite Hq, Hr. reflexivity.
Qed.

(** X10.  For [1 <= bytes < 1024^4] the number [formatFileSize] prints is
    [bytes / 1024^i] rounded to hundredths: the text before the blank is a
    decimal numeral, and the number of hundredths it denotes differs from a
    hundred times the quotient by at most one half. *)
Theorem formatFileSize_rounds_to_hundredths (bytes : Z) :
  1 <= bytes < 1024 ^ 4 ->
  let d := 1024 ^ unit_index bytes in
  exists number unit n,
    formatFileSize bytes = number ++ js " " ++ unit /\
    sizes_at (unit_index bytes) = Some unit /\
    decimal_hundredths number = Some n /\
    0 < d /\
    Z.abs (200 * bytes - 2 * d * n) <= d.
Proof.
  intros [Hb Hlt] d.
  destruct (floor_log_spec 1024 bytes ltac:(lia) Hb) as (Hi & _ & _).
  assert (Hd : 0 < d) by (apply Z.pow_pos_nonneg; [lia | exact Hi]).
  assert (Hi4 : unit_index bytes < 4) by (apply unit_index_lt; lia).
  destruct (proj2 (sizes_at_Some (unit_index bytes)) (conj Hi Hi4)) as [unit Hunit].
  pose proof (Z.div_mod (200 * bytes + d) (2 * d) ltac:(lia)) as Hdm.
  pose proof (Z.mod_pos_bound (200 * bytes + d) (2 * d) ltac:(lia)) as Hm.
  assert (Hn : 0 <= hundredths bytes d) by (apply Z.div_pos; lia).
  exists (hundredths_toString (hundredths bytes d)), unit, (hundredths bytes d).
  split; [| split; [exact Hunit | split; [| split; [exact Hd |]]]].
  - unfold formatFileSize.
    destruct (bytes =? 0) eqn:H0; [apply Z.eqb_eq in H0; lia |].
    destruct (bytes <? 0) eqn:Hneg; [apply Z.ltb_lt in Hneg; lia |].
    cbv zeta. rewrite Hunit. reflexivity.
  - apply hundredths_toString_decodes, Hn.
  - unfold hundredths in *. lia.
Qed.

(* ===================================================================== *)
(** * The upload dialog *)
(* ===================================================================== *)

(** X11.  What a click on "Upload Document" does.  Without a selected file
    nothing is sent.  With one, exactly that file is sent once and
    [isUploading] ends false; when the upload fails the page is untouched
    and the file stays selected, so that a second click sends the same file
    again; when it succeeds the selection is cleared and the page closes the
    dialog, keeping the open chat, and a further click sends nothing. *)
Theorem upload_click_outcomes (d : DashboardPage) (u : DocumentUpload) :
  (selectedFile u = None -> forall resp, dialog_upload resp d u = (d, u, [])) /\
  (forall file, selectedFile u = Some file ->
     (forall resp,
        upload_requests (dialog_upload resp d u).2 = [file] /\
        isUploading (dialog_upload resp d u).1.2 = false) /\
     (let after := (dialog_upload Rejected d u).1 in
      after.1 = d /\
      selectedFile after.2 = Some file /\
      forall resp, upload_requests (dialog_upload resp after.1 after.2).2 = [file]) /\
     (let after := (dialog_upload (Fulfilled tt) d u).1 in
      isUploadDialogOpen after.1 = false /\
      currentChatId after.1 = currentChatId d /\
      selectedFile after.2 = None /\
      forall resp, (dialog_upload resp after.1 after.2).2 = [])).
Proof.
  split.
  - intros Hnone resp. unfold dialog_upload, handleUpload. rewrite Hnone. reflexivity.
  - intros file Hsel. unfold dialog_upload, handleUpload. rewrite Hsel.
    split; [| split].
    + intros [[]|]; split; reflexivity.
    + simpl. repeat split. intros [[]|]; reflexivity.
    + simpl. repeat split.
Qed.

(* ===================================================================== *)
(** * The first turn of a new chat *)
(* ===================================================================== *)

(** X12.  What the panel shows after the first turn of a new chat is the
    server's history, not the pair [handleSend] built.  The turn makes the
    page adopt the new chat id, the change of [chatId] makes the panel load
    the history of that chat, and its result replaces the message list: the
    history that came, or the empty list when the request failed, although
    the turn itself succeeded. *)
Theorem first_turn_is_replaced_by_history
    (clk : Clock) (net : Network) (h : UseChat) (st : ChatInterface)
    (response : ChatResponse.t) (d : DashboardPage) (ph : UseChat)
    (listing : Outcome (list Chat.t)) :
  send_disabled st = false ->
  post_chat net = Fulfilled response ->
  truthy (ChatResponse.chat_id response) = true ->
  let turn := handleSend clk net None h st in
  let c := ChatResponse.chat_id response in
  turn.2 = Some c /\
  messages turn.1.1.1 =
    messages st ++ [newUserMessage clk (trim (input st)) response;
                    newAiMessage clk response] /\
  let d' := (onChatCreated c listing d ph).1.1 in
  currentChatId d' = Some c /\
  forall history,
    messages (loadHistory_effect (currentChatId d') history turn.1.1.1).1 =
      match history with Fulfilled data => data | Rejected => [] end /\
    List.filter is_request (loadHistory_effect (currentChatId d') history turn.1.1.1).2 =
      [Http (GET_history c)].
Proof.
  intros Hen Hpost Hid turn c. subst turn c.
  rewrite (handleSend_fulfilled _ _ _ _ _ response Hen Hpost). simpl.
  split; [reflexivity |]. split; [reflexivity |].
  unfold onChatCreated. destruct (fetchChats listing ph) as [ph' eff]. simpl.
  split; [reflexivity |].
  intros history. rewrite Hid. destruct history; split; reflexivity.
Qed.

(* ===================================================================== *)
(** * More about the order of the sidebar *)
(* ===================================================================== *)

Section ArraySortOrder.
Context {A : Type} (compareFn : A -> A -> Z).
Context (P : A -> Prop) (key : A -> Z).
Hypothesis compareFn_key :
  forall x y, P x -> P y -> (compareFn x y <= 0 <-> key y <= key x).

Lemma Array_sort_sorted_id l :
  Forall P l -> Sorted (not_before key) l -> Array_sort compareFn l = l.
Proof.
  intros Hl Hs. induction Hs as [|x l Hs IH Hhd]; simpl; [reflexivity |].
  inversion Hl as [|? ? Hx Hl']; subst.
  rewrite (IH Hl'). destruct Hhd as [|y l Hxy]; simpl; [reflexivity |].
  inversion Hl' as [|? ? Hy _]; subst.
  replace (compareFn x y <=? 0) with true; [reflexivity |].
  symmetry. apply Z.leb_le, compareFn_key; assumption.
Qed.

Lemma sort_insert_same_key t x l :
  P x -> Forall P l ->
  List.filter (fun y => key y =? t) (sort_insert compareFn x l) =
  List.filter (fun y => key y =? t) (x :: l).
Proof.
  intros Hx Hl. induction Hl as [|y l Hy Hl IH]; [reflexivity |].
  simpl sort_insert. destruct (compareFn x y <=? 0) eqn:Hc; [reflexivity |].
  assert (Hne : key x < key y).
  { apply Z.leb_gt in Hc. apply Z.lt_nge. intros Hle.
    apply (proj2 (compareFn_key x y Hx Hy)) in Hle. lia. }
  change (List.filter (fun y0 => key y0 =? t) (y :: sort_insert compareFn x l))
    with (if key y =? t then y :: List.filter (fun y0 => key y0 =? t) (sort_insert compareFn x l)
          else List.filter (fun y0 => key y0 =? t) (sort_insert compareFn x l)).
  rewrite IH. simpl.
  destruct (key y =? t) eqn:Hyt, (key x =? t) eqn:Hxt; try reflexivity.
  apply Z.eqb_eq in Hyt, Hxt. lia.
Qed.

Lemma Array_sort_same_key t l :
  Forall P l ->
  List.filter (fun y => key y =? t) (Array_sort compareFn l) =
  List.filter (fun y => key y =? t) l.
Proof.
  induction 1 as [|x l Hx Hl IH]; [reflexivity |].
  simpl Array_sort.
  rewrite sort_insert_same_key by (try assumption; apply (Array_sort_Forall compareFn P), Hl).
  simpl. rewrite IH. reflexivity.
Qed.
End ArraySortOrder.

(** X13.  The sidebar keeps an order that is already right: chats that
    arrive most recent first, all of them dated, are shown exactly as they
    came, and sorting what the sidebar shows changes nothing. *)
Theorem sortedChats_keeps_sorted_input
    (getTime : jsstring -> option Z) (chats : list Chat.t) :
  Forall (dated getTime) chats ->
  (Sorted (not_before (time_of getTime)) chats -> sortedChats getTime chats = chats) /\
  sortedChats getTime (sortedChats getTime chats) = sortedChats getTime chats.
Proof.
  intros Hd. split.
  - intros Hs. unfold sortedChats.
    apply (Array_sort_sorted_id _ (dated getTime) (time_of getTime));
      [apply compare_chats_key | exact Hd | exact Hs].
  - unfold sortedChats.
    apply (Array_sort_sorted_id _ (dated getTime) (time_of getTime)).
    + apply compare_chats_key.
    + rewrite Array_sort_perm. exact Hd.
    + apply (Array_sort_Sorted _ (dated getTime)); [apply compare_chats_key | exact Hd].
Qed.

(** X14.  The sort of the sidebar is stable: among dated chats, those with
    the same [last_message_at] time appear in the sidebar in the order in
    which they were given. *)
Theorem sortedChats_stable
    (getTime : jsstring -> option Z) (chats : list Chat.t) (t : Z) :
  Forall (dated getTime) chats ->
  List.filter (fun c => time_of getTime c =? t) (sortedChats getTime chats) =
  List.filter (fun c => time_of getTime c =? t) chats.
Proof.
  intros Hd. unfold sortedChats.
  apply (Array_sort_same_key _ (dated getTime) (time_of getTime));
    [apply compare_chats_key | exact Hd].
Qed.

(* ===================================================================== *)
(** * The keys of the rendered messages *)
(* ===================================================================== *)

(** A separator that occurs in neither tail marks where the tails begin. *)
Lemma tail_after_separator {A} (c : A) (l1 l2 d1 d2 : list A) :
  ~ In c d1 -> ~ In c d2 -> l1 ++ c :: d1 = l2 ++ c :: d2 -> d1 = d2.
Proof.
  intros H1 H2. revert l2. induction l1 as [|x l1 IH]; intros [|y l2] H; simpl in H.
  - injection H as H. exact H.
  - injection H as <- H. exfalso. apply H1. rewrite H. apply in_or_app. right. left. reflexivity.
  - injection H as <- H. exfalso. apply H2. rewrite <- H. apply in_or_app. right. left. reflexivity.
  - injection H as _ H. apply (IH l2 H).
Qed.

Lemma digits_without_dash (i : nat) : ~ In 45%N (Z_toString (Z.of_nat i)).
Proof.
  intros Hin. pose proof (Z_toString_digits i) as Hd.
  rewrite List.Forall_forall in Hd. specialize (Hd _ Hin). unfold is_digit in Hd. lia.
Qed.

(** X15.  The keys [renderMessage] gives the rendered messages are pairwise
    different, also when two messages have the same [id]: equal keys at two
    positions of the list mean the same position. *)
Theorem rendered_keys_are_distinct (msgs : list ChatMessage.t) :
  length (renderMessages msgs) = length msgs /\
  forall (i j : nat) vi vj,
    renderMessages msgs !! i = Some vi ->
    renderMessages msgs !! j = Some vj ->
    view_key vi = view_key vj -> i = j.
Proof.
  unfold renderMessages. split; [apply length_imap |].
  intros i j vi vj Hi Hj Hkey.
  rewrite list_lookup_imap in Hi, Hj.
  destruct (msgs !! i) as [mi|]; [| discriminate].
  destruct (msgs !! j) as [mj|]; [| discriminate].
  simpl in Hi, Hj. injection Hi as <-. injection Hj as <-.
  unfold renderMessage in Hkey. simpl in Hkey.
  change (js "-") with [45%N] in Hkey. simpl in Hkey.
  apply tail_after_separator in Hkey; try apply digits_without_dash.
  apply Z_toString_inj in Hkey. lia.
Qed.

(* ===================================================================== *)
(** * Refreshing the list of chats *)
(* ===================================================================== *)

Lemma refetch_all_snoc resps resp h :
  refetch_all (resps ++ [resp]) h = (fetchChats resp (refetch_all resps h)).1.
Proof. unfold refetch_all. rewrite foldl_app. reflexivity. Qed.

Lemma refetch_all_chats resps : forall h,
  chats (refetch_all resps h) = last_fulfilled resps (chats h).
Proof.
  induction resps as [|resp resps IH]; intros h; [reflexivity |].
  unfold refetch_all in *. simpl. rewrite IH. destruct resp; reflexivity.
Qed.

(** X16.  Refreshing never loses chats.  After any number of calls of
    [fetchChats] the hook lists the data of the last request that succeeded,
    or what it listed before if none did; [loading] is false after each
    call, and [error] tells about the last call only: it is [null] when that
    one succeeded and "Failed to load chats" when it failed. *)
Theorem refetch_keeps_last_good_list
    (resps : list (Outcome (list Chat.t))) (h : UseChat) :
  chats (refetch_all resps h) = last_fulfilled resps (chats h) /\
  forall resp,
    let h' := refetch_all (resps ++ [resp]) h in
    loading h' = false /\
    match resp with
    | Fulfilled data => chats h' = data /\ error h' = None
    | Rejected =>
        chats h' = last_fulfilled resps (chats h) /\
        error h' = Some (js "Failed to load chats")
    end.
Proof.
  split; [apply refetch_all_chats |].
  intros resp h'. subst h'. rewrite refetch_all_snoc.
  destruct resp as [data|]; simpl.
  - repeat split.
  - rewrite refetch_all_chats. repeat split.
Qed.

(* ===================================================================== *)
(** * The token dialog *)
(* ===================================================================== *)

Lemma logged_values_app effs1 effs2 :
  logged_values (effs1 ++ effs2) = logged_values effs1 ++ logged_values effs2.
Proof. apply omap_app. Qed.

Lemma clipboard_writes_app effs1 effs2 :
  clipboard_writes (effs1 ++ effs2) = clipboard_writes effs1 ++ clipboard_writes effs2.
Proof. apply omap_app. Qed.

Lemma token_step_invariant ev st logged :
  token_invariant st logged ->
  token_invariant (token_step ev st).1 (logged ++ logged_values (token_step ev st).2) /\
  Forall (fun t => t <> [] /\ In t logged) (clipboard_writes (token_step ev st).2).
Proof.
  intros Hinv. destruct ev as [result | |]; simpl.
  - unfold handleGetToken. destruct result as [[t|]|]; simpl.
    + destruct (truthy t) eqn:Ht; simpl.
      * split; [| constructor]. unfold token_invariant. simpl. intros _. split.
        -- intros Heq. rewrite Heq in Ht. discriminate.
        -- apply in_or_app. right. left. reflexivity.
      * split; [| constructor]. rewrite app_nil_r. exact Hinv.
    + split; [| constructor]. rewrite app_nil_r. exact Hinv.
    + split; [| constructor]. rewrite app_nil_r. exact Hinv.
  - destruct (isTokenDialogOpen st) eqn:Hopen; simpl.
    + rewrite app_nil_r. split; [intros _; apply Hinv, Hopen |].
      constructor; [apply Hinv, Hopen | constructor].
    + rewrite app_nil_r. split; [exact Hinv | constructor].
  - split; [| constructor]. intros Hopen. discriminate.
Qed.

Lemma token_run_invariant evs : forall st logged,
  token_invariant st logged ->
  token_invariant (token_run evs st).1 (logged ++ logged_values (token_run evs st).2) /\
  Forall (fun t => t <> [] /\ In t (logged ++ logged_values (token_run evs st).2))
         (clipboard_writes (token_run evs st).2).
Proof.
  induction evs as [|ev evs IH]; intros st logged Hinv; simpl.
  - rewrite app_nil_r. split; [exact Hinv | constructor].
  - destruct (token_step_invariant ev st logged Hinv) as [Hinv1 Hclip1].
    destruct (token_step ev st) as [st1 eff1]. simpl in *.
    destruct (IH st1 _ Hinv1) as [Hinv2 Hclip2].
    destruct (token_run evs st1) as [st2 eff2]. simpl in *.
    rewrite logged_values_app, clipboard_writes_app, app_assoc.
    split; [exact Hinv2 |]. apply Forall_app. split; [| exact Hclip2].
    eapply Forall_impl; [exact Hclip1 |].
    intros t [Hne Hin]. split; [exact Hne |].
    apply in_or_app. left. apply in_or_app. left. exact Hin.
Qed.

(** X17.  The token dialog shows only real tokens, and every token it hands
    out has been written to the console.  Whatever the user does, when the
    dialog is open its token is not empty; every text copied to the
    clipboard is a non-empty token that [handleGetToken] logged with
    [console.log]; and a call of [getToken] that yields [null] or the empty
    string, or fails, changes neither the dialog nor the token. *)
Theorem token_dialog_shows_logged_tokens :
  (forall evs,
     let st := (token_run evs TokenDialog_initial).1 in
     let effs := (token_run evs TokenDialog_initial).2 in
     (isTokenDialogOpen st = true -> token st <> [] /\ In (token st) (logged_values effs)) /\
     Forall (fun t => t <> [] /\ In t (logged_values effs)) (clipboard_writes effs)) /\
  (forall result st,
     result = Rejected \/ result = Fulfilled None \/ result = Fulfilled (Some []) ->
     (handleGetToken result st).1 = st /\
     logged_values (handleGetToken result st).2 = []).
Proof.
  split.
  - intros evs st effs. subst st effs.
    apply (token_run_invariant evs TokenDialog_initial []).
    intros Hopen. discriminate.
  - intros result st [-> | [-> | ->]]; split; reflexivity.
Qed.

(* ===================================================================== *)
(** * More about the match badge *)
(* ===================================================================== *)

(** X18.  The badge follows the ranking: of two sources, the one with the
    higher [similarity_score] never shows the lower percentage. *)
Theorem badge_follows_score (source source' : Source.t) :
  (Source.similarity_score source <= Source.similarity_score source')%Q ->
  badge_percent (renderSource source) <= badge_percent (renderSource source').
Proof.
  change (badge_percent (renderSource source))
    with (Qfloor (Source.similarity_score source * 100 + (1 # 2))).
  change (badge_percent (renderSource source'))
    with (Qfloor (Source.similarity_score source' * 100 + (1 # 2))).
  intros Hle. apply Qfloor_resp_le.
  apply Qplus_le_compat; [| apply Qle_refl].
  apply Qmult_le_compat_r; [exact Hle | discriminate].
Qed.

(* ===================================================================== *)
(** * These properties at work on sample data *)
(* ===================================================================== *)

Lemma sent_message_is_trimmed_witness :
  send_disabled sample_panel = false /\
  exists m,
    head (handleSend sample_clock sample_network None useChat_initial sample_panel).1.2 =
      Some (Http (POST_chat m None true)) /\
    m <> [].
Proof.
  split; [reflexivity |].
  destruct (sent_message_is_trimmed sample_clock sample_network None useChat_initial
              sample_panel eq_refl) as (m & Hpost & Hne & _).
  exists m. split; assumption.
Defined.

Lemma pending_turn_blocks_resend_witness :
  handleSend sample_clock sample_network None useChat_initial
    (setInput (js "And again?") (handleSend_begin sample_panel).1) =
  (setInput (js "And again?") (handleSend_begin sample_panel).1, useChat_initial, [], None).
Proof.
  exact (proj2 (pending_turn_blocks_resend sample_panel
                  (handleSend_begin sample_panel).1 (js "What is the refund policy?")
                  eq_refl (js "And again?") sample_clock sample_network None
                  useChat_initial)).
Defined.

Lemma send_always_settles_witness :
  send_disabled sample_panel = false /\
  input (handleSend sample_clock failing_network None useChat_initial sample_panel).1.1.1 = [].
Proof.
  split; [reflexivity |].
  exact (proj1 (proj1 send_always_settles sample_clock failing_network None
                  useChat_initial sample_panel eq_refl)).
Defined.

Lemma handleSend_requests_witness :
  (handleSend sample_clock failing_network None useChat_initial sample_panel).1.1.2 =
    useChat_initial.
Proof.
  exact (proj1 (proj2 (handleSend_requests sample_clock failing_network None
                         useChat_initial sample_panel) eq_refl)).
Defined.

Lemma deleteChat_removes_exactly_witness :
  (deleteChat (js "c9") (Fulfilled tt) (tree_sidebar_hook sample_tree)).1.2 =
    tree_sidebar_hook sample_tree.
Proof.
  refine (proj1 (proj2 (proj2 (deleteChat_removes_exactly (js "c9")
                                 (tree_sidebar_hook sample_tree)))) _).
  repeat constructor; intros H; vm_compute in H; discriminate.
Defined.

Lemma deleting_open_chat_selects_empty_id_witness :
  currentChatId (tree_page sample_tree) = Some (js "c1") /\
  currentChatId (tree_page (click_delete (js "c1") (Fulfilled tt) sample_tree).1) = Some [].
Proof.
  split; [reflexivity |].
  exact (proj1 (deleting_open_chat_selects_empty_id (js "c1") sample_tree eq_refl)).
Defined.

Lemma deleted_chat_stays_listed_witness :
  sidebar_view sample_getTime (click_delete (js "c1") (Fulfilled tt) sample_tree).1 =
    ChatList [newer_chat; older_chat] /\
  In older_chat [newer_chat; older_chat].
Proof.
  pose proof (deleted_chat_stays_listed sample_getTime (js "c1") (Fulfilled tt)
                sample_tree [newer_chat; older_chat] older_chat
                eq_refl (or_introl eq_refl) eq_refl) as H.
  exact (conj (proj1 H) (proj1 (proj2 H))).
Defined.

Lemma formatDate_counts_whole_days_witness :
  formatDate sample_getTime (fun s => s) 1704070800000 (js "2024-01-02T00:00:00.000Z") =
    js "Today".
Proof.
  refine (proj1 (proj1 (formatDate_counts_whole_days sample_getTime (fun s => s)
                          1704070800000 (js "2024-01-02T00:00:00.000Z"))
                   1704153600000 eq_refl) _).
  reflexivity.
Defined.

Lemma whole_units_shown_exactly_witness : formatFileSize (5 * 1024 ^ 2) = js "5 MB".
Proof.
  refine (whole_units_shown_exactly 5 2 (js "MB") _ eq_refl).
  split; [discriminate | reflexivity].
Defined.

Lemma formatFileSize_rounds_to_hundredths_witness :
  exists number unit n,
    formatFileSize 1034 = number ++ js " " ++ unit /\
    decimal_hundredths number = Some n /\
    Z.abs (200 * 1034 - 2 * 1024 * n) <= 1024.
Proof.
  destruct (formatFileSize_rounds_to_hundredths 1034
              (conj (ltac:(discriminate) : 1 <= 1034) (eq_refl : 1034 < 1024 ^ 4)))
    as (number & unit & n & Hfmt & _ & Hdec & _ & Hclose).
  exists number, unit, n. split; [exact Hfmt |]. split; [exact Hdec | exact Hclose].
Defined.

Lemma upload_click_outcomes_witness :
  upload_requests (dialog_upload Rejected DashboardPage_initial selected_upload).2 = [pdf_file] /\
  selectedFile (dialog_upload Rejected DashboardPage_initial selected_upload).1.2 = Some pdf_file.
Proof.
  pose proof (proj2 (upload_click_outcomes DashboardPage_initial selected_upload)
                pdf_file eq_refl) as H.
  exact (conj (proj1 (proj1 H Rejected)) (proj1 (proj2 (proj1 (proj2 H))))).
Defined.

Lemma first_turn_is_replaced_by_history_witness :
  messages
    (loadHistory_effect (Some (js "c1")) Rejected
       (handleSend sample_clock sample_network None useChat_initial sample_panel).1.1.1).1 = [].
Proof.
  pose proof (first_turn_is_replaced_by_history sample_clock sample_network
                useChat_initial sample_panel sample_response DashboardPage_initial
                useChat_initial Rejected eq_refl eq_refl eq_refl) as H.
  exact (proj1 (proj2 (proj2 (proj2 H)) Rejected)).
Defined.

Lemma sortedChats_keeps_sorted_input_witness :
  sortedChats sample_getTime [newer_chat; twin_chat; older_chat] =
    [newer_chat; twin_chat; older_chat].
Proof.
  refine (proj1 (sortedChats_keeps_sorted_input sample_getTime
                   [newer_chat; twin_chat; older_chat] _) _).
  - repeat constructor; eexists; reflexivity.
  - repeat constructor; unfold not_before; discriminate.
Defined.

Lemma sortedChats_stable_witness :
  List.filter (fun c => time_of sample_getTime c =? 1704153600000)
    (sortedChats sample_getTime [older_chat; twin_chat; newer_chat]) =
  [twin_chat; newer_chat].
Proof.
  refine (sortedChats_stable sample_getTime [older_chat; twin_chat; newer_chat]
            1704153600000 _).
  repeat constructor; eexists; reflexivity.
Defined.

Lemma rendered_keys_are_distinct_witness :
  view_key (renderMessage (newAiMessage sample_clock sample_response) 0) <>
  view_key (renderMessage (newAiMessage sample_clock sample_response) 1).
Proof.
  intros Hkey.
  pose proof (proj2 (rendered_keys_are_distinct
                       [newAiMessage sample_clock sample_response;
                        newAiMessage sample_clock sample_response])
                0%nat 1%nat _ _ eq_refl eq_refl Hkey) as Heq.
  discriminate Heq.
Defined.

Lemma token_dialog_shows_logged_tokens_witness :
  isTokenDialogOpen (token_run token_events TokenDialog_initial).1 = true /\
  token (token_run token_events TokenDialog_initial).1 <> [] /\
  clipboard_writes (token_run token_events TokenDialog_initial).2 = [js "eyJhbGciOi"].
Proof.
  split; [reflexivity |]. split; [| reflexivity].
  exact (proj1 (proj1 (proj1 token_dialog_shows_logged_tokens token_events) eq_refl)).
Defined.

Lemma badge_follows_score_witness :
  badge_percent (renderSource sample_source) <=
  badge_percent (renderSource overscored_source).
Proof.
  refine (badge_follows_score sample_source overscored_source _).
  discriminate.
Defined.
